(** * Sentiment analyzer: the binary-to-ternary decision rule and its
    prediction contract

    A shallow embedding of [models/sentiment_model.py] (class
    [SentimentAnalyzer]) and the properties its specification states.

    - Python [str] is a sequence of Unicode code points: [list N].
    - Python [float] is IEEE 754 binary64: Rocq's primitive [float], whose
      comparisons [<?], [<=?], [=?] are the IEEE ones (false on NaN).
    - Python [int] is [Z].
    - A raised exception is the left injection of a sum; the state an
      operation leaves behind is returned next to it. *)

From Stdlib Require Import String Ascii ZArith NArith List Bool Lia.
From Stdlib Require Import Floats.
Import ListNotations.

(** A decimal literal denotes the nearest binary64 value, as in Python. *)
Set Warnings "-inexact-float".

Local Open Scope list_scope.

(** ** Python strings *)

Definition str := list N.

(** A [str] literal, from its ASCII spelling. *)
Definition lit (s : string) : str := map N_of_ascii (list_ascii_of_string s).

Module Str.

(** [str.isspace] of one code point: the characters CPython's
    [_PyUnicode_IsWhitespace] accepts. *)
Definition isspace (c : N) : bool :=
  (((0x09 <=? c) && (c <=? 0x0D)) || ((0x1C <=? c) && (c <=? 0x20))
   || (c =? 0x85) || (c =? 0xA0) || (c =? 0x1680)
   || ((0x2000 <=? c) && (c <=? 0x200A))
   || (c =? 0x2028) || (c =? 0x2029) || (c =? 0x202F)
   || (c =? 0x205F) || (c =? 0x3000))%N.

Fixpoint lstrip (s : str) : str :=
  match s with
  | [] => []
  | c :: t => if isspace c then lstrip t else s
  end.

Definition rstrip (s : str) : str := rev (lstrip (rev s)).

(** [s.strip()] *)
Definition strip (s : str) : str := rstrip (lstrip s).

(** Truthiness of a [str]: [bool(s)]. *)
Definition truthy (s : str) : bool :=
  match s with [] => false | _ :: _ => true end.

Fixpoint startswith (s prefix : str) {struct prefix} : bool :=
  match prefix, s with
  | [], _ => true
  | _ :: _, [] => false
  | a :: p, b :: t => (a =? b)%N && startswith t p
  end.

(** [needle in hay] *)
Fixpoint contains (needle hay : str) : bool :=
  startswith hay needle
  || match hay with
     | [] => false
     | _ :: t => contains needle t
     end.

(** The ASCII part of the uppercase mapping. *)
Definition ascii_upper (c : N) : N :=
  if ((0x61 <=? c) && (c <=? 0x7A))%N then (c - 0x20)%N else c.

Section Upper.
(** Outside ASCII the full uppercase mapping of a code point (one code
    point or several) is the Unicode database's. *)
Variable unicode_upper : N -> list N.

Definition upper_char (c : N) : list N :=
  if (c <? 0x80)%N then [ascii_upper c] else unicode_upper c.

(** [s.upper()]: every code point replaced by its uppercase mapping. *)
Definition upper (s : str) : str := flat_map upper_char s.
End Upper.

End Str.

(** ** Python floats *)

Module Float.
Local Open Scope float_scope.

(** [x >= y] and [x > y] *)
Definition geb (x y : float) : bool := y <=? x.
Definition gtb (x y : float) : bool := y <? x.

(** [max(a, b)]: the first argument unless the second is greater. *)
Definition max (a b : float) : float := if gtb b a then b else a.

(** [float(n)] of a non-negative [int] below 2^63. *)
Definition of_Z (n : Z) : float := PrimFloat.of_uint63 (Uint63.of_Z n).

(** The IEEE comparison of two floats, [None] when one of them is NaN. *)
Definition cmp (x y : float) : option comparison :=
  SFcompare (Prim2SF x) (Prim2SF y).
End Float.

(** ** Exceptions *)

Inductive exn : Type :=
| ValueError (msg : str)
| IndexError
| ClassifierFailure (msg : str).

(** The message of [predict]'s [ValueError]: "the input text cannot be
    empty". *)
Definition MSG_EMPTY_TEXT : str :=
  [0x645; 0x62A; 0x646; 0x20; 0x648; 0x631; 0x648; 0x62F; 0x6CC; 0x20;
   0x646; 0x645; 0x6CC; 0x200C; 0x62A; 0x648; 0x627; 0x646; 0x62F; 0x20;
   0x62E; 0x627; 0x644; 0x6CC; 0x20; 0x628; 0x627; 0x634; 0x62F; 0x2E]%N.

(** The message of [batch_predict]'s [ValueError]: "no valid text was sent
    for analysis". *)
Definition MSG_NO_VALID_TEXTS : str :=
  [0x647; 0x6CC; 0x686; 0x20; 0x645; 0x62A; 0x646; 0x20; 0x645; 0x639;
   0x62A; 0x628; 0x631; 0x6CC; 0x20; 0x628; 0x631; 0x627; 0x6CC; 0x20;
   0x62A; 0x62D; 0x644; 0x6CC; 0x644; 0x20; 0x627; 0x631; 0x633; 0x627;
   0x644; 0x20; 0x646; 0x634; 0x62F; 0x647; 0x20; 0x627; 0x633; 0x62A;
   0x2E]%N.

(** The interpreter's own [ValueError]s. *)
Definition MSG_MAX_EMPTY : str := lit "max() arg is an empty sequence".
Definition MSG_RANGE_STEP : str := lit "range() arg 3 must not be zero".

Definition InvalidInputError_empty_text : exn := ValueError MSG_EMPTY_TEXT.
Definition InvalidInputError_no_valid_texts : exn :=
  ValueError MSG_NO_VALID_TEXTS.

(** ** The three labels returned to the dashboard *)

(** "mosbat", positive *)
Definition POSITIVE : str := [0x645; 0x62B; 0x628; 0x62A]%N.
(** "manfi", negative *)
Definition NEGATIVE : str := [0x645; 0x646; 0x641; 0x6CC]%N.
(** "khonsa", neutral *)
Definition NEUTRAL : str := [0x62E; 0x646; 0x62B; 0x6CC]%N.

(** ** Data *)

(** One [{"label": ..., "score": ...}] dict of the pipeline's output. *)
Record score_dict : Type := mk_score { label : str; score : float }.

(** The dataclass [SentimentResult]. *)
Record SentimentResult : Type := mk_result {
  res_label : str;
  res_score : float;
  latency_ms : float
}.

Definition HAPPY : str := lit "HAPPY".
Definition POS : str := lit "POS".
Definition SAD : str := lit "SAD".
Definition NEG : str := lit "NEG".

(** [len(l)] *)
Definition len {A : Type} (l : list A) : Z := Z.of_nat (length l).

(** ** [range] and slices *)

Module Py.

(** The number of items of [range(start, stop, step)], for [step <> 0]. *)
Definition range_length (start stop step : Z) : Z :=
  if (0 <? step)%Z then
    if (start <? stop)%Z then ((stop - start - 1) / step + 1)%Z else 0%Z
  else
    if (stop <? start)%Z then ((start - stop - 1) / (- step) + 1)%Z
    else 0%Z.

(** [range(start, stop, step)]; a zero step is a [ValueError]. *)
Definition range (start stop step : Z) : exn + list Z :=
  if (step =? 0)%Z then inl (ValueError MSG_RANGE_STEP)
  else
    inr (map (fun k => (start + Z.of_nat k * step)%Z)
             (seq 0 (Z.to_nat (range_length start stop step)))).

(** A slice bound, clamped to the list as [l[lo:hi]] does. *)
Definition clamp (n i : Z) : Z :=
  if (i <? 0)%Z then Z.max (i + n) 0 else Z.min i n.

(** [l[lo:hi]] *)
Definition slice {A : Type} (l : list A) (lo hi : Z) : list A :=
  let lo' := clamp (len l) lo in
  let hi' := clamp (len l) hi in
  firstn (Z.to_nat (hi' - lo')) (skipn (Z.to_nat lo') l).

(** [max(items, key=lambda x: float(x["score"]))] after its first item:
    a later item replaces the best one only when its key is greater. *)
Fixpoint max_by_score_from (best : score_dict) (rest : list score_dict)
  : score_dict :=
  match rest with
  | [] => best
  | x :: rest' =>
      if Float.gtb (score x) (score best)
      then max_by_score_from x rest'
      else max_by_score_from best rest'
  end.

Definition max_by_score (items : list score_dict) : exn + score_dict :=
  match items with
  | [] => inl (ValueError MSG_MAX_EMPTY)
  | x :: rest => inr (max_by_score_from x rest)
  end.

(** Truthiness of a list: [bool(l)]. *)
Definition truthy {A : Type} (l : list A) : bool :=
  match l with [] => false | _ :: _ => true end.

(** [l[i]] for [0 <= i]. *)
Definition index {A : Type} (l : list A) (i : nat) : exn + A :=
  match nth_error l i with
  | Some x => inr x
  | None => inl IndexError
  end.

End Py.

(** What the analyzer asks of the Hugging Face runtime. *)
Inductive event : Type :=
| Load (name : str) (dev : Z)
| CallOne (text : str) (max_length : Z)
| CallMany (texts : list str) (max_length : Z).

(** ** The analyzer *)

Section Analyzer.

Local Open Scope float_scope.

(** The Unicode database's uppercase mapping outside ASCII. *)
Variable unicode_upper : N -> list N.

(** The outside world: the clock and the Hugging Face runtime. *)
Variable World : Type.
(** A loaded [TextClassificationPipeline]. *)
Variable Pipeline : Type.
(** [time.perf_counter()] *)
Variable perf_counter : World -> float * World.
(** [torch.cuda.is_available()] *)
Variable cuda_is_available : World -> bool.
(** Building the pipeline for a model name and a device: the tokenizer and
    the model are loaded; the failure carries the runtime's message. *)
Variable load_pipeline : str -> Z -> World -> (str + Pipeline) * World.
(** The pipeline called on one text, with [truncation=True] and a
    [max_length]: with [return_all_scores=True] a list of score dicts. *)
Variable call_one :
  Pipeline -> str -> Z -> World -> (str + list score_dict) * World.
(** The pipeline called on a list of texts: one list of score dicts per
    text. *)
Variable call_many :
  Pipeline -> list str -> Z -> World
  -> (str + list (list score_dict)) * World.

Record SentimentAnalyzer : Type := mk_analyzer {
  model_name : str;
  positive_threshold : float;
  negative_threshold : float;
  device : Z;
  _pipeline : option Pipeline
}.

Definition DEFAULT_MODEL : str :=
  lit "HooshvareLab/bert-fa-base-uncased-sentiment-snappfood".

(** [SentimentAnalyzer.__init__] *)
Definition init (name : str) (dev : option Z)
    (positive negative : float) (w : World) : SentimentAnalyzer :=
  {| model_name := name;
     positive_threshold := positive;
     negative_threshold := negative;
     device := match dev with
               | None => if cuda_is_available w then 0%Z else (-1)%Z
               | Some d => d
               end;
     _pipeline := None |}.

(** [SentimentAnalyzer()] *)
Definition default_analyzer (w : World) : SentimentAnalyzer :=
  init DEFAULT_MODEL None 0.65 0.65 w.

(** *** Pure methods *)

(** [SentimentAnalyzer._map_label_to_persian] *)
Definition _map_label_to_persian (label : str) : str :=
  let upper := Str.upper unicode_upper label in
  if Str.contains HAPPY upper || Str.contains POS upper then POSITIVE
  else if Str.contains SAD upper || Str.contains NEG upper then NEGATIVE
  else NEUTRAL.

(** Lines 96-104 of [_derive_three_class]: which of the first two scores
    is the positive one. The pair is [(pos_prob, neg_prob)]. *)
Definition pos_neg_prob (s0 s1 : score_dict) : float * float :=
  let label0 := Str.upper unicode_upper (label s0) in
  let p0 := score s0 in
  let p1 := score s1 in
  if Str.contains HAPPY label0 || Str.contains POS label0
  then (p0, p1)
  else (p1, p0).

(** Lines 106-111: the decision on [(pos_prob, neg_prob)]. *)
Definition decide (self : SentimentAnalyzer) (pn : float * float)
  : str * float :=
  let '(pos_prob, neg_prob) := pn in
  if Float.geb pos_prob (positive_threshold self)
     && Float.geb pos_prob neg_prob
  then (POSITIVE, pos_prob)
  else if Float.geb neg_prob (negative_threshold self)
          && Float.gtb neg_prob pos_prob
  then (NEGATIVE, neg_prob)
  else (NEUTRAL, Float.max pos_prob neg_prob).

(** [SentimentAnalyzer._derive_three_class] *)
Definition _derive_three_class (self : SentimentAnalyzer)
    (scores : list score_dict) : exn + (str * float) :=
  if (len scores <? 2)%Z then
    match Py.max_by_score scores with
    | inl e => inl e
    | inr best => inr (_map_label_to_persian (label best), score best)
    end
  else
    match Py.index scores 0, Py.index scores 1 with
    | inr s0, inr s1 => inr (decide self (pos_neg_prob s0 s1))
    | inl e, _ => inl e
    | _, inl e => inl e
    end.

(** *** State and effects *)

(** What a method can touch: the analyzer object (its lazily built
    pipeline), the outside world, and the log of what was asked of the
    Hugging Face runtime so far. *)
Record state : Type := mk_state {
  self : SentimentAnalyzer;
  world : World;
  trace : list event
}.

(** A computation that may raise: the state it leaves is returned in both
    cases. *)
Definition M (A : Type) : Type := state -> (exn + A) * state.

Definition ret {A : Type} (a : A) : M A := fun st => (inr a, st).

Definition raise {A : Type} (e : exn) : M A := fun st => (inl e, st).

Definition bind {A B : Type} (m : M A) (f : A -> M B) : M B :=
  fun st =>
    match m st with
    | (inl e, st') => (inl e, st')
    | (inr a, st') => f a st'
    end.

Definition lift {A : Type} (r : exn + A) : M A := fun st => (r, st).

Local Notation "x <- m ;; k" := (bind m (fun x => k))
  (at level 61, m at next level, right associativity).
Local Notation "' pat <- m ;; k" :=
  (bind m (fun x => match x with pat => k end))
  (at level 61, pat pattern, m at next level, right associativity).

(** [for x in items: acc = body(x, acc)] *)
Fixpoint for_each {I A : Type} (items : list I) (body : I -> A -> M A)
    (acc : A) : M A :=
  match items with
  | [] => ret acc
  | x :: rest => acc' <- body x acc ;; for_each rest body acc'
  end.

Definition get_self : M SentimentAnalyzer := fun st => (inr (self st), st).

(** [time.perf_counter()] *)
Definition now : M float :=
  fun st =>
    let '(t, w) := perf_counter (world st) in
    (inr t, mk_state (self st) w (trace st)).

Definition failure {A : Type} (r : str + A) : exn + A :=
  match r with
  | inl msg => inl (ClassifierFailure msg)
  | inr a => inr a
  end.

(** The property [SentimentAnalyzer.pipeline]: built on first use, then
    cached in [_pipeline]. *)
Definition pipeline : M Pipeline :=
  fun st =>
    let a := self st in
    match _pipeline a with
    | Some p => (inr p, st)
    | None =>
        let log := trace st ++ [Load (model_name a) (device a)] in
        match load_pipeline (model_name a) (device a) (world st) with
        | (inl msg, w) => (inl (ClassifierFailure msg), mk_state a w log)
        | (inr p, w) =>
            (inr p,
             mk_state (mk_analyzer (model_name a) (positive_threshold a)
                         (negative_threshold a) (device a) (Some p))
                      w log)
        end
    end.

(** [pipe(text, truncation=True, max_length=max_length)] *)
Definition run_one (pipe : Pipeline) (text : str) (max_length : Z)
  : M (list score_dict) :=
  fun st =>
    let '(r, w) := call_one pipe text max_length (world st) in
    (failure r,
     mk_state (self st) w (trace st ++ [CallOne text max_length])).

(** [pipe(batch, truncation=True, max_length=max_length)] *)
Definition run_many (pipe : Pipeline) (batch : list str) (max_length : Z)
  : M (list (list score_dict)) :=
  fun st =>
    let '(r, w) := call_many pipe batch max_length (world st) in
    (failure r,
     mk_state (self st) w (trace st ++ [CallMany batch max_length])).

(** *** The prediction methods *)

(** [t and t.strip()], as a condition. *)
Definition has_content (t : str) : bool :=
  Str.truthy t && Str.truthy (Str.strip t).

(** [SentimentAnalyzer.predict] *)
Definition predict (text : str) (max_length : Z) : M SentimentResult :=
  if negb (Str.truthy text) || negb (Str.truthy (Str.strip text)) then
    raise (ValueError MSG_EMPTY_TEXT)
  else
    start <- now ;;
    pipe <- pipeline ;;
    outputs <- run_one pipe text max_length ;;
    stop <- now ;;
    let latency_ms := (stop - start) * 1000 in
    a <- get_self ;;
    ' (label, score) <- lift (_derive_three_class a outputs) ;;
    ret (mk_result label score latency_ms).

(** The body of the inner loop of [batch_predict]: one result appended. *)
Definition append_result (per_item_latency : float) (out : list score_dict)
    (results : list SentimentResult) : M (list SentimentResult) :=
  a <- get_self ;;
  ' (label, score) <- lift (_derive_three_class a out) ;;
  ret (results ++ [mk_result label score per_item_latency]).

(** The body of the outer loop of [batch_predict]: the chunk that starts
    at index [i]. *)
Definition predict_chunk (clean_texts : list str)
    (max_length batch_size : Z) (i : Z) (results : list SentimentResult)
  : M (list SentimentResult) :=
  let batch := Py.slice clean_texts i (i + batch_size) in
  start <- now ;;
  pipe <- pipeline ;;
  outputs <- run_many pipe batch max_length ;;
  stop <- now ;;
  let batch_latency_ms := (stop - start) * 1000 in
  let per_item_latency :=
    batch_latency_ms / Float.of_Z (Z.max (len outputs) 1) in
  for_each outputs (append_result per_item_latency) results.

(** [SentimentAnalyzer.batch_predict] *)
Definition batch_predict (texts : list str) (max_length batch_size : Z)
  : M (list SentimentResult) :=
  let clean_texts := filter has_content texts in
  if negb (Py.truthy clean_texts) then
    raise (ValueError MSG_NO_VALID_TEXTS)
  else
    indices <- lift (Py.range 0 (len clean_texts) batch_size) ;;
    for_each indices (predict_chunk clean_texts max_length batch_size) [].

End Analyzer.

Arguments mk_analyzer {Pipeline}.
Arguments model_name {Pipeline}.
Arguments positive_threshold {Pipeline}.
Arguments negative_threshold {Pipeline}.
Arguments device {Pipeline}.
Arguments _pipeline {Pipeline}.
Arguments decide {Pipeline}.
Arguments _derive_three_class unicode_upper {Pipeline}.
Arguments mk_state {World Pipeline}.
Arguments self {World Pipeline}.
Arguments world {World Pipeline}.
Arguments trace {World Pipeline}.
Arguments predict unicode_upper {World Pipeline}.
Arguments batch_predict unicode_upper {World Pipeline}.
Arguments predict_chunk unicode_upper {World Pipeline}.
Arguments append_result unicode_upper {World Pipeline}.
Arguments for_each {World Pipeline I A}.
Arguments pipeline {World Pipeline}.
Arguments run_many {World Pipeline}.
Arguments run_one {World Pipeline}.
Arguments now {World Pipeline}.
Arguments get_self {World Pipeline}.

(** ** Vocabulary of the specification *)

(** [needle] occurs in [hay] as a substring. *)
Definition substring (needle hay : str) : Prop :=
  exists before after, hay = before ++ needle ++ after.

(** [needle] occurs in [hay] up to the case of ASCII letters. *)
Definition substring_nocase (needle hay : str) : Prop :=
  exists before mid after,
    hay = before ++ mid ++ after
    /\ map Str.ascii_upper mid = map Str.ascii_upper needle.

Definition is_ascii (s : str) : Prop := Forall (fun c => (c < 0x80)%N) s.

(** An input text that is empty or made of whitespace only. *)
Definition blank (text : str) : Prop :=
  Forall (fun c => Str.isspace c = true) text.

(** Neither probability is NaN. *)
Definition is_number (x : float) : Prop := PrimFloat.is_nan x = false.

(** Numeric equality of floats, Python's [==]. *)
Definition float_eq (x y : float) : Prop := PrimFloat.eqb x y = true.

(** The chunks [batch_predict] hands to the pipeline, in order. *)
Definition chunks (clean_texts : list str) (batch_size : Z)
  : list (list str) :=
  match Py.range 0 (len clean_texts) batch_size with
  | inl _ => []
  | inr indices =>
      map (fun i => Py.slice clean_texts i (i + batch_size)) indices
  end.

(** Two analyzers with the same thresholds. *)
Definition same_thresholds {P : Type} (a b : SentimentAnalyzer P) : Prop :=
  positive_threshold a = positive_threshold b
  /\ negative_threshold a = negative_threshold b.

(** The result [r] carries the label and the confidence the rule derives
    from the classifier output [out]. *)
Definition derived_from (unicode_upper : N -> list N) {P : Type}
    (a : SentimentAnalyzer P) (out : list score_dict) (r : SentimentResult)
  : Prop :=
  _derive_three_class unicode_upper a out = inr (res_label r, res_score r).

(** The batches the pipeline was called on, in order, according to a log. *)
Definition batches_of (log : list event) : list (list str) :=
  flat_map (fun ev => match ev with
                      | CallMany batch _ => [batch]
                      | _ => []
                      end) log.

(** What can go wrong past the input guards: the runtime fails, or an
    output is empty and the fallback takes the maximum of nothing. *)
Definition runtime_error (e : exn) : Prop :=
  (exists msg, e = ClassifierFailure msg) \/ e = ValueError MSG_MAX_EMPTY.

(** *** The Classifier Port's contract

    The port answers a call on a list of texts with one non-empty sequence
    of (label, probability) pairs per text, in input order. *)

Definition port_loads {World Pipeline : Type}
    (load_pipeline : str -> Z -> World -> (str + Pipeline) * World)
  : Prop :=
  forall name dev w, exists pipe w',
    load_pipeline name dev w = (inr pipe, w').

Definition port_answers {World Pipeline : Type}
    (call_many : Pipeline -> list str -> Z -> World
                 -> (str + list (list score_dict)) * World)
  : Prop :=
  forall pipe batch max_length w, exists outputs w',
    call_many pipe batch max_length w = (inr outputs, w')
    /\ length outputs = length batch
    /\ Forall (fun out => out <> []) outputs.

(** The port as a function of each text: the answer for a text does not
    depend on the batch it arrives in. *)
Definition port_classifies {World Pipeline : Type}
    (classify : str -> Z -> list score_dict)
    (call_many : Pipeline -> list str -> Z -> World
                 -> (str + list (list score_dict)) * World)
  : Prop :=
  forall pipe batch max_length w,
    fst (call_many pipe batch max_length w)
    = inr (map (fun t => classify t max_length) batch).

(** ** A stub runtime, for worked examples *)

Module Stub.

(** No case mapping outside ASCII. *)
Definition unicode_upper (c : N) : list N := [c].

(** The world is a tick counter; the clock reads it in seconds. *)
Definition World : Type := nat.
Definition Pipeline : Type := unit.

Definition perf_counter (w : World) : float * World :=
  (Float.of_Z (Z.of_nat w), S w).

Definition load_pipeline (name : str) (dev : Z) (w : World)
  : (str + Pipeline) * World := (inr tt, w).

(** A two-class answer: texts that mention "good" are 90% HAPPY, the others
    80% SAD. *)
Definition classify (t : str) (max_length : Z) : list score_dict :=
  if Str.contains (lit "good") t
  then [mk_score HAPPY 0.9; mk_score SAD 0.1]
  else [mk_score HAPPY 0.2; mk_score SAD 0.8].

Definition call_one (pipe : Pipeline) (t : str) (max_length : Z)
    (w : World) : (str + list score_dict) * World :=
  (inr (classify t max_length), w).

Definition call_many (pipe : Pipeline) (batch : list str) (max_length : Z)
    (w : World) : (str + list (list score_dict)) * World :=
  (inr (map (fun t => classify t max_length) batch), w).

(** [SentimentAnalyzer()] on a machine without a GPU, before any call. *)
Definition analyzer : SentimentAnalyzer Pipeline :=
  default_analyzer World Pipeline (fun _ => false) 0.

Definition start : state World Pipeline := mk_state analyzer 0 [].

End Stub.

(** ** More vocabulary *)

(** The pipelines the analyzer asked to build, in order, according to a
    log: model name and device. *)
Definition loads_of (log : list event) : list (str * Z) :=
  flat_map (fun ev => match ev with
                      | Load name dev => [(name, dev)]
                      | _ => []
                      end) log.

(** Two analyzers configured alike: everything but the cached pipeline. *)
Definition same_config {P : Type} (a b : SentimentAnalyzer P) : Prop :=
  model_name a = model_name b
  /\ positive_threshold a = positive_threshold b
  /\ negative_threshold a = negative_threshold b
  /\ device a = device b.

(** What a method may do to the state: the configuration stays, the log
    only grows, and a pipeline that is cached stays the one cached, no
    other being built. *)
Definition evolves {W P : Type} (st st' : state W P) : Prop :=
  same_config (self st) (self st')
  /\ (exists log, trace st' = trace st ++ log)
  /\ (forall pipe,
        _pipeline (self st) = Some pipe ->
        self st' = self st /\ loads_of (trace st') = loads_of (trace st)).

(** A computation that only makes the state evolve, whatever it returns
    or raises. *)
Definition steady {W P A : Type} (m : M W P A) : Prop :=
  forall st, evolves st (snd (m st)).

(** The port called on one text, as a function of the text. *)
Definition port_classifies_one {World Pipeline : Type}
    (classify : str -> Z -> list score_dict)
    (call_one : Pipeline -> str -> Z -> World
                -> (str + list score_dict) * World)
  : Prop :=
  forall pipe text max_length w,
    fst (call_one pipe text max_length w) = inr (classify text max_length).

(** ** [utils.py] *)

Module Utils.

(** [text.split()] with a word under way, kept in reverse: whitespace ends
    the word, and an empty word is not kept. *)
Fixpoint split_from (word : str) (s : str) : list str :=
  match s with
  | [] => match word with [] => [] | _ :: _ => [rev word] end
  | c :: rest =>
      if Str.isspace c then
        match word with
        | [] => split_from [] rest
        | _ :: _ => rev word :: split_from [] rest
        end
      else split_from (c :: word) rest
  end.

(** [text.split()] *)
Definition split (text : str) : list str := split_from [] text.

(** ['\u0600' <= c <= '\u06FF'] *)
Definition is_persian (c : N) : bool := ((0x600 <=? c) && (c <=? 0x6FF))%N.

(** [sum(1 for c in text if ...)] *)
Definition count (p : N -> bool) (text : str) : Z := len (filter p text).

Inductive arith_error : Type := ZeroDivisionError.

(** [a / b] on two [int]s: the quotient as a [float] (for operands below
    2^53, which convert exactly), or [ZeroDivisionError]. *)
Definition truediv (a b : Z) : arith_error + float :=
  if (b =? 0)%Z then inl ZeroDivisionError
  else inr (PrimFloat.div (Float.of_Z a) (Float.of_Z b)).

(** A value that is an [int] or a [float]. *)
Inductive number : Type :=
| Int (n : Z)
| Flt (x : float).

(** The dict [analyze_text_statistics] returns. *)
Record text_statistics : Type := mk_statistics {
  word_count : Z;
  char_count : Z;
  persian_char_count : Z;
  avg_word_length : number;
  persian_ratio : number
}.

(** [analyze_text_statistics] *)
Definition analyze_text_statistics (text : str)
  : arith_error + text_statistics :=
  let words := split text in
  let chars := len text in
  let persian_chars := count is_persian text in
  match (if Py.truthy words
         then match truediv chars (len words) with
              | inl e => inl e
              | inr x => inr (Flt x)
              end
         else inr (Int 0)) with
  | inl e => inl e
  | inr avg =>
      match (if (0 <? chars)%Z
             then match truediv persian_chars chars with
                  | inl e => inl e
                  | inr x => inr (Flt x)
                  end
             else inr (Int 0)) with
      | inl e => inl e
      | inr ratio =>
          inr (mk_statistics (len words) chars persian_chars avg ratio)
      end
  end.

(** [==] on [str]. *)
Fixpoint str_eqb (a b : str) : bool :=
  match a, b with
  | [], [] => true
  | x :: a', y :: b' => (x =? y)%N && str_eqb a' b'
  | _, _ => false
  end.

(** [d.get(key, default)] on a dict written as its items. *)
Fixpoint dict_get (d : list (str * str)) (key default : str) : str :=
  match d with
  | [] => default
  | (k, v) :: rest => if str_eqb k key then v else dict_get rest key default
  end.

(** The strings of [get_sentiment_emoji], code point by code point as the
    source file has them. *)
Definition EMOJI_POSITIVE : str := [0xF0; 0x178; 0x2DC; 0x160]%N.
Definition EMOJI_NEGATIVE : str := [0xF0; 0x178; 0x2DC; 0xA0]%N.
Definition EMOJI_NEUTRAL : str := [0xF0; 0x178; 0x2DC]%N.
Definition EMOJI_UNKNOWN : str := [0xF0; 0x178; 0xA4; 0x201D]%N.

Definition emoji_map : list (str * str) :=
  [(lit "positive", EMOJI_POSITIVE);
   (lit "negative", EMOJI_NEGATIVE);
   (lit "neutral", EMOJI_NEUTRAL)].

(** [get_sentiment_emoji] *)
Definition get_sentiment_emoji (sentiment : str) : str :=
  dict_get emoji_map sentiment EMOJI_UNKNOWN.

(** *** [save_feedback] *)

Local Set Warnings "-register-all".

(** A value [json] reads and writes. *)
Inductive json : Type :=
| JNull
| JBool (b : bool)
| JInt (n : Z)
| JFloat (x : float)
| JStr (s : str)
| JList (items : list json)
| JDict (items : list (str * json)).

Inductive io_error : Type :=
| JSONDecodeError
| AttributeError.

Section Feedback.

(** What a file holds, and [json]'s writer and reader for it:
    [json.dump(data, f, ensure_ascii=False, indent=2)] and
    [json.load(f)], which fails on what is not JSON. *)
Variable Content : Type.
Variable json_dump : json -> Content.
Variable json_load : Content -> option json.

(** The clock: [datetime.now().isoformat()]. *)
Variable Clock : Type.
Variable now_isoformat : Clock -> str * Clock.

(** The files, by name. *)
Definition files : Type := str -> option Content.

(** A file written anew. *)
Definition write (fs : files) (name : str) (c : Content) : files :=
  fun other => if str_eqb other name then Some c else fs other.

(** The entry [save_feedback] builds. *)
Definition feedback_entry (timestamp text predicted_sentiment
    user_feedback : str) (confidence : float) : json :=
  JDict [(lit "timestamp", JStr timestamp);
         (lit "text", JStr text);
         (lit "predicted_sentiment", JStr predicted_sentiment);
         (lit "user_feedback", JStr user_feedback);
         (lit "confidence", JFloat confidence)].

(** [data.append(entry)]: lists have it, the other values do not. *)
Definition append (data entry : json) : io_error + json :=
  match data with
  | JList items => inr (JList (items ++ [entry]))
  | _ => inl AttributeError
  end.

(** [save_feedback]: the clock is read, the file is read if it exists,
    the entry is appended and the file is written again. *)
Definition save_feedback (text predicted_sentiment user_feedback : str)
    (confidence : float) (filename : str) (clock : Clock) (fs : files)
  : (io_error + unit) * (Clock * files) :=
  let '(timestamp, clock') := now_isoformat clock in
  let entry :=
    feedback_entry timestamp text predicted_sentiment user_feedback
      confidence in
  let loaded :=
    match fs filename with
    | Some content =>
        match json_load content with
        | Some data => inr data
        | None => inl JSONDecodeError
        end
    | None => inr (JList [])
    end in
  match loaded with
  | inl e => (inl e, (clock', fs))
  | inr feedback_data =>
      match append feedback_data entry with
      | inl e => (inl e, (clock', fs))
      | inr feedback_data' =>
          (inr tt, (clock', write fs filename (json_dump feedback_data')))
      end
  end.

(** What [json.load] makes of the feedback file, when there is one. *)
Definition stored (fs : files) (filename : str) : option json :=
  match fs filename with
  | Some content => json_load content
  | None => None
  end.

End Feedback.

End Utils.

(** ** A stub codec and clock, for worked examples *)

Module StubFiles.

(** A file holds the value itself; reading it back always succeeds. *)
Definition Content : Type := Utils.json.
Definition json_dump (v : Utils.json) : Content := v.
Definition json_load (c : Content) : option Utils.json := Some c.

(** The clock is a tick counter, and every timestamp reads "now". *)
Definition Clock : Type := nat.
Definition now_isoformat (c : Clock) : str * Clock := (lit "now", S c).

(** No file at all. *)
Definition no_files : Utils.files Content := fun _ => None.

End StubFiles.

(** ** Stub ports that misbehave, for worked examples *)

Module StubFaulty.

(** A runtime that is down: every call fails with its message. *)
Definition call_one_down (pipe : Stub.Pipeline) (t : str) (max_length : Z)
    (w : Stub.World) : (str + list score_dict) * Stub.World :=
  (inl (lit "down"), w).

(** A model that cannot be loaded. *)
Definition load_pipeline_missing (name : str) (dev : Z) (w : Stub.World)
  : (str + Stub.Pipeline) * Stub.World :=
  (inl (lit "missing"), w).

(** A port that answers every text with no score at all. *)
Definition call_one_empty (pipe : Stub.Pipeline) (t : str) (max_length : Z)
    (w : Stub.World) : (str + list score_dict) * Stub.World :=
  (inr [], w).

Definition call_many_empty (pipe : Stub.Pipeline) (batch : list str)
    (max_length : Z) (w : Stub.World)
  : (str + list (list score_dict)) * Stub.World :=
  (inr (map (fun _ => []) batch), w).

End StubFaulty.

(** * Properties *)

(** ** The order of floats *)

Module FloatFacts.

Local Open Scope float_scope.

(** Swapping the arguments of the IEEE comparison mirrors its answer. *)
Lemma SFcompare_swap (x y : spec_float) :
  SFcompare y x = option_map CompOpp (SFcompare x y).
Proof.
  destruct x as [sx | sx | | sx mx ex], y as [sy | sy | | sy my ey];
    simpl; try reflexivity;
    try (destruct sx; reflexivity);
    try (destruct sy; reflexivity);
    try (destruct sx, sy; reflexivity).
  change (Pos.compare_cont Eq mx my) with (Pos.compare mx my).
  change (Pos.compare_cont Eq my mx) with (Pos.compare my mx).
  rewrite (Pos.compare_antisym my mx), (Z.compare_antisym ey ex).
  destruct sx, sy; try reflexivity; f_equal;
    destruct (ey ?= ex)%Z; simpl; try reflexivity;
    destruct (my ?= mx)%positive; reflexivity.
Qed.

Lemma ltb_cmp x y :
  (x <? y) = match Float.cmp x y with Some Lt => true | _ => false end.
Proof. apply ltb_spec. Qed.

Lemma leb_cmp x y :
  (x <=? y) = match Float.cmp x y with Some (Lt | Eq) => true | _ => false end.
Proof. apply leb_spec. Qed.

Lemma eqb_cmp x y :
  (x =? y) = match Float.cmp x y with Some Eq => true | _ => false end.
Proof. apply eqb_spec. Qed.

Lemma cmp_swap x y : Float.cmp y x = option_map CompOpp (Float.cmp x y).
Proof. apply SFcompare_swap. Qed.

Lemma cmp_is_number x y :
  is_number x -> is_number y -> Float.cmp x y <> None.
Proof.
  unfold is_number, is_nan. rewrite !eqb_cmp. unfold Float.cmp.
  destruct (Prim2SF x), (Prim2SF y); simpl; congruence.
Qed.

(** [x > y] excludes [y >= x]. *)
Lemma gtb_not_geb x y : Float.gtb x y = true -> Float.geb y x = false.
Proof.
  unfold Float.gtb, Float.geb. rewrite ltb_cmp, leb_cmp, (cmp_swap y x).
  destruct (Float.cmp y x) as [[]|]; simpl; congruence.
Qed.

(** [x >= y] excludes [y > x]. *)
Lemma geb_not_gtb x y : Float.geb x y = true -> Float.gtb y x = false.
Proof.
  unfold Float.gtb, Float.geb. rewrite ltb_cmp, leb_cmp, (cmp_swap y x).
  destruct (Float.cmp y x) as [[]|]; simpl; congruence.
Qed.

(** Equal numbers are [>=] each other. *)
Lemma eq_geb x y : float_eq x y -> Float.geb x y = true.
Proof.
  unfold float_eq, Float.geb. rewrite eqb_cmp, leb_cmp, (cmp_swap x y).
  destruct (Float.cmp x y) as [[]|]; simpl; congruence.
Qed.

Lemma float_eq_sym x y : float_eq x y -> float_eq y x.
Proof.
  unfold float_eq. rewrite !eqb_cmp, (cmp_swap x y).
  destruct (Float.cmp x y) as [[]|]; simpl; congruence.
Qed.

Lemma float_eq_refl x : is_number x -> float_eq x x.
Proof.
  unfold is_number, float_eq, is_nan. destruct (x =? x); simpl; congruence.
Qed.

(** Two numbers neither of which is greater are equal. *)
Lemma not_gtb_eq x y :
  is_number x -> is_number y ->
  Float.gtb x y = false -> Float.gtb y x = false -> float_eq x y.
Proof.
  intros Hx Hy. pose proof (cmp_is_number x y Hx Hy) as Hc.
  unfold Float.gtb, float_eq. rewrite !ltb_cmp, eqb_cmp, (cmp_swap x y).
  destruct (Float.cmp x y) as [[]|]; simpl; congruence.
Qed.

(** [max] is one of its arguments and symmetric up to numeric equality. *)
Lemma max_swap x y :
  is_number x -> is_number y -> float_eq (Float.max x y) (Float.max y x).
Proof.
  intros Hx Hy. unfold Float.max.
  destruct (Float.gtb y x) eqn:Hyx, (Float.gtb x y) eqn:Hxy.
  - apply gtb_not_geb in Hyx. unfold Float.gtb, Float.geb in *.
    rewrite ltb_cmp in Hxy. rewrite leb_cmp in Hyx.
    destruct (Float.cmp y x) as [[]|]; discriminate.
  - now apply float_eq_refl.
  - now apply float_eq_refl.
  - now apply not_gtb_eq.
Qed.

End FloatFacts.

(** ** Strings *)

Module StrFacts.

Lemma startswith_iff (s prefix : str) :
  Str.startswith s prefix = true <-> exists rest, s = prefix ++ rest.
Proof.
  revert s. induction prefix as [|a p IH]; intros s; simpl.
  - split; [intros _; now exists s | reflexivity].
  - destruct s as [|b t].
    + split; [discriminate | intros [r H]; discriminate].
    + rewrite andb_true_iff, N.eqb_eq, IH. split.
      * intros [-> [r ->]]. now exists r.
      * intros [r H]. injection H as -> ->. split; [reflexivity | now exists r].
Qed.

(** [needle in hay] is the substring relation. *)
Lemma contains_iff (needle hay : str) :
  Str.contains needle hay = true <-> substring needle hay.
Proof.
  unfold substring. induction hay as [|c t IH].
  - simpl. rewrite orb_false_r, startswith_iff. split.
    + intros [r H]. now exists [], r.
    + intros [b [a H]]. destruct b; [now exists a|discriminate].
  - cbn [Str.contains]. rewrite orb_true_iff, startswith_iff, IH. split.
    + intros [[r H] | [b [a H]]].
      * now exists [], r.
      * exists (c :: b), a. simpl. now rewrite H.
    + intros [[|c' b] [a H]].
      * left. now exists a.
      * right. injection H as _ H. now exists b, a.
Qed.

Lemma contains_false_iff (needle hay : str) :
  Str.contains needle hay = false <-> ~ substring needle hay.
Proof.
  rewrite <- contains_iff. destruct (Str.contains needle hay); split;
    congruence.
Qed.

Lemma blank_lstrip (s : str) : Str.lstrip s = [] <-> blank s.
Proof.
  unfold blank. induction s as [|c t IH]; simpl.
  - split; [constructor | reflexivity].
  - destruct (Str.isspace c) eqn:E.
    + rewrite IH. split; [now constructor | now inversion 1].
    + split; [discriminate | inversion 1; congruence].
Qed.

Lemma blank_rev (s : str) : blank (rev s) <-> blank s.
Proof.
  unfold blank. rewrite !Forall_forall. split; intros H c Hc; apply H.
  - now apply in_rev in Hc.
  - now apply in_rev.
Qed.

Lemma blank_of_lstrip (s : str) : blank (Str.lstrip s) <-> blank s.
Proof.
  unfold blank. induction s as [|c t IH]; simpl; [tauto|].
  destruct (Str.isspace c) eqn:E; [|tauto].
  rewrite IH. split; [now constructor | now inversion 1].
Qed.

(** Stripping leaves nothing exactly when the text is blank. *)
Lemma strip_nil_iff (s : str) : Str.strip s = [] <-> blank s.
Proof.
  unfold Str.strip, Str.rstrip.
  rewrite <- blank_of_lstrip, <- (blank_rev (Str.lstrip s)), <- blank_lstrip.
  split; intros H.
  - apply (f_equal (@rev N)) in H. now rewrite rev_involutive in H.
  - now rewrite H.
Qed.

Lemma truthy_false_iff (s : str) : Str.truthy s = false <-> s = [].
Proof. destruct s; simpl; split; congruence. Qed.

(** The guard of [predict] fires exactly on blank texts. *)
Lemma guard_iff (text : str) :
  negb (Str.truthy text) || negb (Str.truthy (Str.strip text)) = true
  <-> blank text.
Proof.
  rewrite orb_true_iff, !negb_true_iff, !truthy_false_iff, strip_nil_iff.
  split; [intros [->|H]; [constructor | exact H] | now right].
Qed.

(** The filter of [batch_predict] keeps exactly the texts that are not
    blank. *)
Lemma has_content_iff (t : str) : has_content t = true <-> ~ blank t.
Proof.
  pose proof (guard_iff t) as G. unfold has_content.
  destruct (Str.truthy t), (Str.truthy (Str.strip t)); simpl in *;
    split; intros H; try reflexivity; try discriminate;
    try (intros B; apply G in B; discriminate);
    exfalso; apply H, G; reflexivity.
Qed.

(** On ASCII text [upper] maps letter by letter. *)
Lemma upper_ascii (unicode_upper : N -> list N) (s : str) :
  is_ascii s -> Str.upper unicode_upper s = map Str.ascii_upper s.
Proof.
  unfold is_ascii, Str.upper. induction 1 as [|c t Hc _ IH].
  - reflexivity.
  - cbn [flat_map map]. unfold Str.upper_char at 1.
    rewrite (proj2 (N.ltb_lt _ _) Hc). cbn [app]. now f_equal.
Qed.

(** A keyword in capitals occurs in the uppercased text exactly when it
    occurs in the text up to case. *)
Lemma substring_upper (keyword s : str) :
  map Str.ascii_upper keyword = keyword ->
  substring keyword (map Str.ascii_upper s) <-> substring_nocase keyword s.
Proof.
  intros Hk. unfold substring, substring_nocase. split.
  - intros [b [a H]].
    apply map_eq_app in H as (b' & r & -> & Hb & Hr).
    apply map_eq_app in Hr as (m & a' & -> & Hm & Ha).
    exists b', m, a'. split; [reflexivity | congruence].
  - intros (b & m & a & -> & Hm).
    exists (map Str.ascii_upper b), (map Str.ascii_upper a).
    rewrite !map_app. congruence.
Qed.

End StrFacts.

(** ** The label mapping and the decision rule *)

Section DecisionRule.

Context (unicode_upper : N -> list N) {Pipeline : Type}.

Implicit Types (self : SentimentAnalyzer Pipeline) (s : score_dict).
Implicit Types (scores rest : list score_dict).

Lemma labels_distinct :
  POSITIVE <> NEGATIVE /\ POSITIVE <> NEUTRAL /\ NEGATIVE <> NEUTRAL.
Proof. repeat split; discriminate. Qed.

Lemma keywords_capital (keyword : str) :
  In keyword [HAPPY; POS; SAD; NEG] ->
  map Str.ascii_upper keyword = keyword.
Proof.
  simpl. intros [<- | [<- | [<- | [<- | []]]]]; reflexivity.
Qed.

(** With two entries or more the rule looks at the first two only. *)
Lemma derive_two self s0 s1 rest :
  _derive_three_class unicode_upper self (s0 :: s1 :: rest)
  = inr (decide self (pos_neg_prob unicode_upper s0 s1)).
Proof.
  unfold _derive_three_class, len.
  replace (Z.of_nat (length (s0 :: s1 :: rest)) <? 2)%Z with false.
  - reflexivity.
  - symmetry. apply Z.ltb_ge. cbn [length]. lia.
Qed.

(** The rule reads the analyzer's thresholds and nothing else. *)
Lemma derive_same_thresholds self (other : SentimentAnalyzer Pipeline)
    scores :
  same_thresholds self other ->
  _derive_three_class unicode_upper self scores
  = _derive_three_class unicode_upper other scores.
Proof.
  intros [Hp Hn]. unfold _derive_three_class, decide.
  now rewrite Hp, Hn.
Qed.

(** The confidence of [decide] is the greater of the two probabilities. *)
Lemma decide_confidence self (pos_prob neg_prob : float) :
  snd (decide self (pos_prob, neg_prob)) = Float.max pos_prob neg_prob.
Proof.
  unfold decide, Float.max.
  destruct (Float.geb pos_prob (positive_threshold self)
            && Float.geb pos_prob neg_prob) eqn:H1.
  - apply andb_true_iff in H1 as [_ H1].
    now rewrite (FloatFacts.geb_not_gtb _ _ H1).
  - destruct (Float.geb neg_prob (negative_threshold self)
              && Float.gtb neg_prob pos_prob) eqn:H2.
    + apply andb_true_iff in H2 as [_ H2]. now rewrite H2.
    + reflexivity.
Qed.

(** C1. With at least two entries, when [pos_prob >= positive_threshold]
    and [pos_prob >= neg_prob] the rule answers POSITIVE with confidence
    [pos_prob]; in particular it does so at an exact tie
    [pos_prob == neg_prob == positive_threshold], the POSITIVE test coming
    before the NEGATIVE one. No bound on the thresholds is needed. *)
Theorem derive_positive self s0 s1 rest :
  let pos_prob := fst (pos_neg_prob unicode_upper s0 s1) in
  let neg_prob := snd (pos_neg_prob unicode_upper s0 s1) in
  (Float.geb pos_prob (positive_threshold self) = true ->
   Float.geb pos_prob neg_prob = true ->
   _derive_three_class unicode_upper self (s0 :: s1 :: rest)
   = inr (POSITIVE, pos_prob))
  /\ (float_eq pos_prob neg_prob ->
      float_eq pos_prob (positive_threshold self) ->
      _derive_three_class unicode_upper self (s0 :: s1 :: rest)
      = inr (POSITIVE, pos_prob)).
Proof.
  intros pos_prob neg_prob.
  assert (rule : Float.geb pos_prob (positive_threshold self) = true ->
                 Float.geb pos_prob neg_prob = true ->
                 _derive_three_class unicode_upper self (s0 :: s1 :: rest)
                 = inr (POSITIVE, pos_prob)).
  { intros Ht Hn. rewrite derive_two. subst pos_prob neg_prob.
    destruct (pos_neg_prob unicode_upper s0 s1) as [p n].
    cbn [fst snd] in *. unfold decide. now rewrite Ht, Hn. }
  split; [exact rule|].
  intros Htie Hthr. apply rule; now apply FloatFacts.eq_geb.
Qed.

(** C2. With at least two entries, when [neg_prob >= negative_threshold]
    and [neg_prob > pos_prob] the POSITIVE test has not fired (it needs
    [pos_prob >= neg_prob]) and the rule answers NEGATIVE with confidence
    [neg_prob]. *)
Theorem derive_negative self s0 s1 rest :
  let pos_prob := fst (pos_neg_prob unicode_upper s0 s1) in
  let neg_prob := snd (pos_neg_prob unicode_upper s0 s1) in
  Float.geb neg_prob (negative_threshold self) = true ->
  Float.gtb neg_prob pos_prob = true ->
  Float.geb pos_prob (positive_threshold self)
  && Float.geb pos_prob neg_prob = false
  /\ _derive_three_class unicode_upper self (s0 :: s1 :: rest)
     = inr (NEGATIVE, neg_prob).
Proof.
  intros pos_prob neg_prob Ht Hgt. rewrite derive_two.
  subst pos_prob neg_prob.
  destruct (pos_neg_prob unicode_upper s0 s1) as [p n]. cbn [fst snd] in *.
  assert (Hfirst : Float.geb p (positive_threshold self) && Float.geb p n
                   = false).
  { rewrite (FloatFacts.gtb_not_geb _ _ Hgt). apply andb_false_r. }
  split; [exact Hfirst|]. unfold decide. now rewrite Hfirst, Ht, Hgt.
Qed.

(** C3. With at least two entries, when neither the POSITIVE test nor the
    NEGATIVE test fires the rule answers NEUTRAL with confidence
    [max(pos_prob, neg_prob)]. *)
Theorem derive_neutral self s0 s1 rest :
  let pos_prob := fst (pos_neg_prob unicode_upper s0 s1) in
  let neg_prob := snd (pos_neg_prob unicode_upper s0 s1) in
  Float.geb pos_prob (positive_threshold self)
  && Float.geb pos_prob neg_prob = false ->
  Float.geb neg_prob (negative_threshold self)
  && Float.gtb neg_prob pos_prob = false ->
  _derive_three_class unicode_upper self (s0 :: s1 :: rest)
  = inr (NEUTRAL, Float.max pos_prob neg_prob).
Proof.
  intros pos_prob neg_prob Hp Hn. rewrite derive_two.
  subst pos_prob neg_prob.
  destruct (pos_neg_prob unicode_upper s0 s1) as [p n]. cbn [fst snd] in *.
  unfold decide. now rewrite Hp, Hn.
Qed.

(** C9. With at least two entries whose first two probabilities are
    numbers, the confidence the rule returns equals [max(p0, p1)] in every
    branch: POSITIVE comes with [pos_prob >= neg_prob] and returns
    [pos_prob], NEGATIVE comes with [neg_prob > pos_prob] and returns
    [neg_prob], NEUTRAL returns [max(pos_prob, neg_prob)]. *)
Theorem derive_confidence_is_max self s0 s1 rest :
  is_number (score s0) -> is_number (score s1) ->
  let pos_prob := fst (pos_neg_prob unicode_upper s0 s1) in
  let neg_prob := snd (pos_neg_prob unicode_upper s0 s1) in
  exists category confidence,
    _derive_three_class unicode_upper self (s0 :: s1 :: rest)
    = inr (category, confidence)
    /\ float_eq confidence (Float.max (score s0) (score s1))
    /\ (category = POSITIVE ->
        confidence = pos_prob /\ Float.geb pos_prob neg_prob = true)
    /\ (category = NEGATIVE ->
        confidence = neg_prob /\ Float.gtb neg_prob pos_prob = true)
    /\ (category = NEUTRAL -> confidence = Float.max pos_prob neg_prob).
Proof.
  intros H0 H1 pos_prob neg_prob.
  pose proof labels_distinct as (Dpn & Dpu & Dnu).
  rewrite derive_two.
  assert (Hmax : float_eq (Float.max pos_prob neg_prob)
                          (Float.max (score s0) (score s1))).
  { subst pos_prob neg_prob. unfold pos_neg_prob.
    destruct (Str.contains HAPPY _ || Str.contains POS _); cbn [fst snd].
    - apply FloatFacts.float_eq_refl. unfold Float.max.
      now destruct (Float.gtb (score s1) (score s0)).
    - now apply FloatFacts.max_swap. }
  pose proof (decide_confidence self pos_prob neg_prob) as Hconf.
  subst pos_prob neg_prob.
  destruct (pos_neg_prob unicode_upper s0 s1) as [p n]. cbn [fst snd] in *.
  revert Hconf. unfold decide.
  destruct (Float.geb p (positive_threshold self) && Float.geb p n) eqn:E1;
    [|destruct (Float.geb n (negative_threshold self) && Float.gtb n p)
        eqn:E2];
    cbn [snd]; intros Hconf; eexists _, _; (split; [reflexivity|]);
    (split; [first [exact Hmax | now rewrite <- Hconf in Hmax]|]);
    repeat split; try congruence.
  - now apply andb_true_iff in E1.
  - now apply andb_true_iff in E2.
Qed.

(** C7. A sequence of fewer than two entries that is not empty goes
    through the fallback: the entry of maximum probability (no entry has a
    greater one) is selected, its label is mapped by
    [_map_label_to_persian] and its probability is the confidence. The
    single entry ("HAPPY", 0.99) gives POSITIVE with confidence 0.99
    whatever the thresholds. *)
Theorem derive_fallback self :
  (forall scores,
     (len scores < 2)%Z -> scores <> [] ->
     exists best,
       In best scores
       /\ Forall (fun s => Float.gtb (score s) (score best) = false) scores
       /\ _derive_three_class unicode_upper self scores
          = inr (_map_label_to_persian unicode_upper (label best),
                 score best))
  /\ _derive_three_class unicode_upper self [mk_score HAPPY 0.99]
     = inr (POSITIVE, 0.99%float).
Proof.
  split; [|reflexivity].
  intros [|s [|s' rest]] Hlen Hne.
  - contradiction.
  - exists s. split; [now left|]. split; [|reflexivity].
    constructor; [|constructor]. unfold Float.gtb.
    rewrite FloatFacts.ltb_cmp.
    pose proof (FloatFacts.cmp_swap (score s) (score s)) as Hs.
    destruct (Float.cmp (score s) (score s)) as [[]|]; simpl in Hs;
      congruence.
  - unfold len in Hlen. cbn [length] in Hlen. lia.
Qed.

Lemma derive_nil self :
  _derive_three_class unicode_upper self [] = inl (ValueError MSG_MAX_EMPTY).
Proof. reflexivity. Qed.

Lemma derive_nonempty self scores :
  scores <> [] ->
  exists category confidence,
    _derive_three_class unicode_upper self scores
    = inr (category, confidence).
Proof.
  destruct scores as [|s0 [|s1 rest]]; intros Hne.
  - contradiction.
  - eexists _, _. reflexivity.
  - rewrite derive_two.
    destruct (decide self (pos_neg_prob unicode_upper s0 s1)) as [c p].
    now exists c, p.
Qed.

(** C10. On a sequence with at least one entry the rule always returns a
    label and a confidence; on the empty sequence the fallback takes the
    maximum of nothing and raises. *)
Theorem derive_total self :
  (forall scores,
     scores <> [] ->
     exists category confidence,
       _derive_three_class unicode_upper self scores
       = inr (category, confidence))
  /\ _derive_three_class unicode_upper self []
     = inl (ValueError MSG_MAX_EMPTY).
Proof.
  split; [apply derive_nonempty | apply derive_nil].
Qed.

(** C8, as the code has it. The positive keywords are tested first:
    POSITIVE when the uppercased label contains "HAPPY" or "POS";
    NEGATIVE when it contains neither but contains "SAD" or "NEG";
    NEUTRAL when it contains none of the four. On an ASCII label a keyword
    occurs in the uppercased label exactly when it occurs in the label up
    to case. *)
Theorem map_label_first_match (raw : str) :
  let upper := Str.upper unicode_upper raw in
  let positive := substring HAPPY upper \/ substring POS upper in
  let negative := substring SAD upper \/ substring NEG upper in
  (positive -> _map_label_to_persian unicode_upper raw = POSITIVE)
  /\ (~ positive -> negative ->
      _map_label_to_persian unicode_upper raw = NEGATIVE)
  /\ (~ positive -> ~ negative ->
      _map_label_to_persian unicode_upper raw = NEUTRAL)
  /\ (is_ascii raw ->
      forall keyword, In keyword [HAPPY; POS; SAD; NEG] ->
        substring keyword upper <-> substring_nocase keyword raw).
Proof.
  intros upper positive negative.
  assert (Hp : Str.contains HAPPY upper || Str.contains POS upper = true
               <-> positive).
  { now rewrite orb_true_iff, !StrFacts.contains_iff. }
  assert (Hn : Str.contains SAD upper || Str.contains NEG upper = true
               <-> negative).
  { now rewrite orb_true_iff, !StrFacts.contains_iff. }
  unfold _map_label_to_persian. fold upper.
  destruct (Str.contains HAPPY upper || Str.contains POS upper);
    destruct (Str.contains SAD upper || Str.contains NEG upper);
    repeat split; try reflexivity; intros;
    try (exfalso; intuition discriminate);
    try (subst upper; rewrite StrFacts.upper_ascii in * by assumption;
         apply StrFacts.substring_upper; try assumption;
         now apply keywords_capital).
Qed.

End DecisionRule.

(** ** Ranges, slices and chunks *)

Module ChunkFacts.

Section Lists.

Context {A : Type}.
Implicit Types (l : list A) (b k m : nat).

(** A slice between two bounds in order, the lower one not negative. *)
Lemma slice_firstn_skipn l (lo hi : Z) :
  (0 <= lo <= hi)%Z ->
  Py.slice l lo hi
  = firstn (Z.to_nat (hi - lo)) (skipn (Z.to_nat lo) l).
Proof.
  intros H. unfold Py.slice, Py.clamp, len.
  destruct (Z.ltb_spec lo 0); [lia|]. destruct (Z.ltb_spec hi 0); [lia|].
  destruct (Z.le_gt_cases lo (Z.of_nat (length l))) as [Hlo|Hlo].
  - rewrite (Z.min_l lo) by exact Hlo.
    destruct (Z.le_gt_cases hi (Z.of_nat (length l))) as [Hhi|Hhi].
    + now rewrite Z.min_l.
    + rewrite Z.min_r by lia.
      rewrite !firstn_all2; try reflexivity; rewrite length_skipn; lia.
  - rewrite !Z.min_r by lia. rewrite Z.sub_diag. cbn [Z.to_nat firstn].
    rewrite (skipn_all2 l) by lia. now rewrite firstn_nil.
Qed.

Lemma firstn_plus l k b :
  firstn (k + b) l = firstn k l ++ firstn b (skipn k l).
Proof.
  revert l. induction k as [|k IH]; intros [|x l]; simpl.
  - reflexivity.
  - reflexivity.
  - now rewrite firstn_nil.
  - now rewrite IH.
Qed.

(** Consecutive blocks of [b] items make up a prefix. *)
Lemma concat_blocks l b m :
  concat (map (fun k => firstn b (skipn (k * b) l)) (seq 0 m))
  = firstn (m * b) l.
Proof.
  induction m as [|m IH].
  - reflexivity.
  - rewrite seq_S, map_app, concat_app, IH. cbn [map concat plus].
    rewrite app_nil_r, <- firstn_plus. f_equal. lia.
Qed.

End Lists.

(** The indices of the chunks: the multiples of the batch size below the
    length. *)
Lemma range_chunks (n batch_size : Z) :
  (0 < batch_size)%Z -> (0 <= n)%Z ->
  exists m : nat,
    Py.range 0 n batch_size
    = inr (map (fun k => (Z.of_nat k * batch_size)%Z) (seq 0 m))
    /\ (n <= Z.of_nat m * batch_size)%Z
    /\ (forall k : nat, (k < m)%nat -> (Z.of_nat k * batch_size < n)%Z).
Proof.
  intros Hb Hn. unfold Py.range, Py.range_length.
  destruct (Z.eqb_spec batch_size 0); [lia|].
  destruct (Z.ltb_spec 0 batch_size); [|lia].
  rewrite Z.sub_0_r.
  destruct (Z.ltb_spec 0 n) as [Hpos|Hzero].
  - exists (Z.to_nat ((n - 1) / batch_size + 1)).
    assert (Hq : (0 <= (n - 1) / batch_size)%Z)
      by (apply Z.div_pos; lia).
    pose proof (Z.mul_div_le (n - 1) batch_size Hb) as Hle.
    pose proof (Z.mul_succ_div_gt (n - 1) batch_size Hb) as Hgt.
    split; [reflexivity|]. split; [nia|]. intros k Hk. nia.
  - exists 0%nat. split; [reflexivity|]. split; [lia|]. intros k Hk. lia.
Qed.

(** With a positive batch size the chunks are the consecutive blocks of
    that many texts: put end to end they are the list, and each holds at
    least one text and at most [batch_size]. *)
Lemma chunks_partition (clean_texts : list str) (batch_size : Z) :
  (0 < batch_size)%Z ->
  concat (chunks clean_texts batch_size) = clean_texts
  /\ Forall (fun batch => (0 < len batch <= batch_size)%Z)
            (chunks clean_texts batch_size).
Proof.
  intros Hb. unfold chunks.
  destruct (range_chunks (len clean_texts) batch_size Hb)
    as (m & -> & Hcover & Hin); [unfold len; lia|].
  rewrite map_map.
  assert (Hslice : forall k : nat,
            Py.slice clean_texts (Z.of_nat k * batch_size)
              (Z.of_nat k * batch_size + batch_size)
            = firstn (Z.to_nat batch_size)
                (skipn (k * Z.to_nat batch_size) clean_texts)).
  { intros k. rewrite slice_firstn_skipn by lia. f_equal; [f_equal; lia|].
    f_equal. lia. }
  split.
  - erewrite map_ext by (intros k; apply Hslice).
    rewrite concat_blocks. apply firstn_all2. unfold len in Hcover. lia.
  - apply Forall_forall. intros batch Hbatch.
    apply in_map_iff in Hbatch as (k & <- & Hk). apply in_seq in Hk.
    rewrite Hslice. unfold len. rewrite length_firstn, length_skipn.
    specialize (Hin k ltac:(lia)). unfold len in Hin. lia.
Qed.

End ChunkFacts.

(** ** Prediction *)

Section Prediction.

Context (unicode_upper : N -> list N) {World Pipeline : Type}.
Context (perf_counter : World -> float * World).
Context (load_pipeline : str -> Z -> World -> (str + Pipeline) * World).
Context (call_one :
  Pipeline -> str -> Z -> World -> (str + list score_dict) * World).
Context (call_many :
  Pipeline -> list str -> Z -> World
  -> (str + list (list score_dict)) * World).

Implicit Types (st : state World Pipeline) (text : str).

(** The rule fails on the empty sequence only, with the interpreter's
    [ValueError]. *)
Lemma derive_error (a : SentimentAnalyzer Pipeline) scores e :
  _derive_three_class unicode_upper a scores = inl e ->
  scores = [] /\ e = ValueError MSG_MAX_EMPTY.
Proof.
  destruct scores as [|s0 rest].
  - rewrite derive_nil. intros [= <-]. now split.
  - destruct (derive_nonempty unicode_upper a (s0 :: rest))
      as (c & p & E); [discriminate|].
    rewrite E. discriminate.
Qed.

(** The interpreter's [ValueError]s are told from the analyzer's by their
    messages. *)
Lemma max_error_not_empty_text :
  ValueError MSG_MAX_EMPTY <> InvalidInputError_empty_text.
Proof. discriminate. Qed.

Lemma max_error_not_no_valid_texts :
  ValueError MSG_MAX_EMPTY <> InvalidInputError_no_valid_texts.
Proof. discriminate. Qed.

Lemma range_error_not_no_valid_texts :
  ValueError MSG_RANGE_STEP <> InvalidInputError_no_valid_texts.
Proof. discriminate. Qed.

(** The lazily built pipeline: one [Load] is logged when it is built, and
    the thresholds are kept. *)
Lemma pipeline_effect st :
  let '(r, st') := pipeline load_pipeline st in
  same_thresholds (self st) (self st')
  /\ (exists log, trace st' = trace st ++ log)
  /\ (forall e, r = inl e -> exists msg, e = ClassifierFailure msg).
Proof.
  unfold pipeline. destruct (_pipeline (self st)) as [p|].
  - repeat split. exists []. now rewrite app_nil_r. discriminate.
  - destruct (load_pipeline _ _ _) as [[msg|p] w]; cbn [self trace].
    + repeat split; [now eexists|]. intros e [= <-]. now exists msg.
    + repeat split; [now eexists|]. discriminate.
Qed.

(** C4. On a text that is empty or made of whitespace only [predict]
    raises its [ValueError] at once: the state it leaves is the state it
    found, so the pipeline has been neither built nor called and the clock
    has not been read. On any other text the guard is passed: whatever
    [predict] answers it is not that error, and the runtime has been asked
    for something. *)
Theorem predict_guard text (max_length : Z) st :
  (blank text ->
   predict unicode_upper perf_counter load_pipeline call_one
     text max_length st
   = (inl InvalidInputError_empty_text, st))
  /\ (~ blank text ->
      let '(r, st') :=
        predict unicode_upper perf_counter load_pipeline call_one
          text max_length st in
      r <> inl InvalidInputError_empty_text
      /\ exists ev log, trace st' = trace st ++ ev :: log).
Proof.
  unfold predict. split; intros B.
  - apply StrFacts.guard_iff in B. now rewrite B.
  - destruct (negb (Str.truthy text) || negb (Str.truthy (Str.strip text)))
      eqn:G; [apply StrFacts.guard_iff in G; contradiction|].
    unfold bind, now, pipeline, run_one, get_self, lift, ret, failure.
    destruct (perf_counter (world st)) as [t0 w0]. cbn.
    destruct (_pipeline (self st)) as [p|]; cbn.
    + destruct (call_one p text max_length w0) as [[msg|outs] w1]; cbn.
      * split; [discriminate | now eexists _, _].
      * destruct (perf_counter w1) as [t1 w2]. cbn.
        destruct (_derive_three_class unicode_upper (self st) outs)
          as [e|[c x]] eqn:D; cbn.
        -- apply derive_error in D as [_ ->].
           split; [|now eexists _, _]. intros E.
           apply max_error_not_empty_text. congruence.
        -- split; [discriminate | now eexists _, _].
    + destruct (load_pipeline _ _ w0) as [[msg|p] w1]; cbn.
      * split; [discriminate | now eexists _, _].
      * destruct (call_one p text max_length w1) as [[msg|outs] w2]; cbn.
        -- split; [discriminate|]. eexists _, _.
           now rewrite <- app_assoc.
        -- destruct (perf_counter w2) as [t1 w3]. cbn.
           match goal with
           | |- context [_derive_three_class unicode_upper ?a outs] =>
               destruct (_derive_three_class unicode_upper a outs)
                 as [e|[c x]] eqn:D
           end; cbn.
           ++ apply derive_error in D as [_ ->].
              split; [|eexists _, _; now rewrite <- app_assoc].
              intros E. apply max_error_not_empty_text. congruence.
           ++ split; [discriminate|]. eexists _, _.
              now rewrite <- app_assoc.
Qed.

(** *** The loops of [batch_predict] *)

Lemma derived_from_same_thresholds (a b : SentimentAnalyzer Pipeline)
    out r :
  same_thresholds a b ->
  derived_from unicode_upper a out r -> derived_from unicode_upper b out r.
Proof.
  unfold derived_from. intros H.
  now rewrite (derive_same_thresholds unicode_upper a b out H).
Qed.

Lemma same_thresholds_trans (a b c : SentimentAnalyzer Pipeline) :
  same_thresholds a b -> same_thresholds b c -> same_thresholds a c.
Proof. unfold same_thresholds. intuition congruence. Qed.

Lemma append_result_eq (latency : float) (out : list score_dict)
    (results : list SentimentResult) st :
  append_result unicode_upper latency out results st
  = match _derive_three_class unicode_upper (self st) out with
    | inl e => (inl e, st)
    | inr (category, confidence) =>
        (inr (results ++ [mk_result category confidence latency]), st)
    end.
Proof.
  unfold append_result, bind, get_self, lift, ret.
  now destruct (_derive_three_class unicode_upper (self st) out) as [e|[c x]].
Qed.

(** The inner loop over non-empty outputs appends one result per output
    and leaves the state alone. *)
Lemma emit_all (latency : float) (outputs : list (list score_dict))
    (results : list SentimentResult) st :
  Forall (fun out => out <> []) outputs ->
  exists rs,
    for_each outputs (append_result unicode_upper latency) results st
    = (inr (results ++ rs), st)
    /\ Forall2 (derived_from unicode_upper (self st)) outputs rs.
Proof.
  intros Hne. revert results.
  induction Hne as [|out outputs Hout _ IH]; intros results.
  - exists []. rewrite app_nil_r. split; [reflexivity | constructor].
  - destruct (derive_nonempty unicode_upper (self st) out Hout)
      as (c & x & D).
    destruct (IH (results ++ [mk_result c x latency])) as (rs & E & F).
    exists (mk_result c x latency :: rs). split.
    + cbn [for_each]. unfold bind at 1. rewrite append_result_eq, D.
      rewrite E. now rewrite <- app_assoc.
    + constructor; [exact D | exact F].
Qed.

(** Its only failure is the fallback's, on an empty output. *)
Lemma emit_error (latency : float) (outputs : list (list score_dict))
    (results : list SentimentResult) st e :
  fst (for_each outputs (append_result unicode_upper latency) results st)
  = inl e ->
  e = ValueError MSG_MAX_EMPTY.
Proof.
  revert results. induction outputs as [|out outputs IH]; intros results.
  - discriminate.
  - cbn [for_each]. unfold bind at 1. rewrite append_result_eq.
    destruct (_derive_three_class unicode_upper (self st) out)
      as [e'|[c x]] eqn:D.
    + intros [= <-]. now apply derive_error in D.
    + apply IH.
Qed.

Lemma batches_of_app (log more : list event) :
  batches_of (log ++ more) = batches_of log ++ batches_of more.
Proof. apply flat_map_app. Qed.

Lemma pipeline_ok st :
  port_loads load_pipeline ->
  exists pipe st',
    pipeline load_pipeline st = (inr pipe, st')
    /\ same_thresholds (self st) (self st')
    /\ batches_of (trace st') = batches_of (trace st).
Proof.
  intros L. unfold pipeline. destruct (_pipeline (self st)) as [p|].
  - exists p, st. now repeat split.
  - destruct (L (model_name (self st)) (device (self st)) (world st))
      as (p & w & ->).
    eexists _, _. repeat split. cbn [trace].
    rewrite batches_of_app. apply app_nil_r.
Qed.

(** One chunk, when the port keeps its contract: the pipeline answers with
    one output per text of the chunk and one result per output is
    appended. *)
Lemma chunk_ok (clean_texts : list str) (max_length batch_size i : Z)
    (results : list SentimentResult) st :
  port_loads load_pipeline -> port_answers call_many ->
  let batch := Py.slice clean_texts i (i + batch_size) in
  exists outputs rs st',
    predict_chunk unicode_upper perf_counter load_pipeline call_many
      clean_texts max_length batch_size i results st
    = (inr (results ++ rs), st')
    /\ same_thresholds (self st) (self st')
    /\ batches_of (trace st') = batches_of (trace st) ++ [batch]
    /\ length outputs = length batch
    /\ (exists pipe w, fst (call_many pipe batch max_length w) = inr outputs)
    /\ Forall2 (derived_from unicode_upper (self st)) outputs rs.
Proof.
  intros L C batch. unfold predict_chunk. fold batch.
  unfold bind at 1. unfold now at 1.
  destruct (perf_counter (world st)) as [t0 w0].
  unfold bind at 1.
  destruct (pipeline_ok (mk_state (self st) w0 (trace st)) L)
    as (pipe & st1 & -> & T1 & B1). cbn [self trace] in T1, B1.
  unfold bind at 1. unfold run_many at 1.
  destruct (C pipe batch max_length (world st1))
    as (outputs & w2 & Ecall & Hlen & Hne).
  rewrite Ecall. cbn [failure].
  unfold bind at 1. unfold now at 1. cbn [world self trace].
  destruct (perf_counter w2) as [t1 w3].
  match goal with
  | |- context [for_each outputs ?body results ?s] =>
      destruct (emit_all
                  (PrimFloat.div (PrimFloat.mul (PrimFloat.sub t1 t0) 1000)
                     (Float.of_Z (Z.max (len outputs) 1)))
                  outputs results s Hne) as (rs & E & F)
  end.
  exists outputs, rs. eexists. split; [exact E|]. cbn [self trace] in *.
  split; [exact T1|]. split; [now rewrite batches_of_app, B1|].
  split; [exact Hlen|]. split.
  - exists pipe, (world st1). now rewrite Ecall.
  - eapply Forall2_impl; [|exact F]. intros out r.
    apply derived_from_same_thresholds.
    destruct T1 as [Hp Hn]. now split.
Qed.

(** One chunk, whatever the port does: a failure is the runtime's or the
    fallback's. *)
Lemma chunk_error (clean_texts : list str) (max_length batch_size i : Z)
    (results : list SentimentResult) st e :
  fst (predict_chunk unicode_upper perf_counter load_pipeline call_many
         clean_texts max_length batch_size i results st)
  = inl e ->
  runtime_error e.
Proof.
  unfold predict_chunk. unfold bind at 1. unfold now at 1.
  destruct (perf_counter (world st)) as [t0 w0].
  unfold bind at 1.
  pose proof (pipeline_effect (mk_state (self st) w0 (trace st))) as P.
  destruct (pipeline load_pipeline _) as [[e'|pipe] st1].
  - destruct P as (_ & _ & P). intros [= <-]. left. now apply P.
  - clear P. unfold bind at 1. unfold run_many at 1.
    destruct (call_many pipe _ max_length (world st1)) as [[msg|outs] w2];
      cbn [failure].
    + intros [= <-]. left. now exists msg.
    + unfold bind at 1. unfold now at 1. cbn [world self trace].
      destruct (perf_counter w2) as [t1 w3].
      intros E. right. now apply emit_error in E.
Qed.

Lemma loop_error (clean_texts : list str) (max_length batch_size : Z)
    (indices : list Z) (results : list SentimentResult) st e :
  fst (for_each indices
         (predict_chunk unicode_upper perf_counter load_pipeline call_many
            clean_texts max_length batch_size) results st)
  = inl e ->
  runtime_error e.
Proof.
  revert results st. induction indices as [|i indices IH]; intros results st.
  - discriminate.
  - cbn [for_each]. unfold bind at 1.
    destruct (predict_chunk _ _ _ _ _ _ _ i results st)
      as [[e'|results'] st1] eqn:E.
    + intros [= <-]. apply (chunk_error clean_texts max_length batch_size
                               i results st). now rewrite E.
    + apply IH.
Qed.

(** The outer loop, when the port keeps its contract: it ends, and its
    results are derived, in order, from the outputs the pipeline gave for
    the chunks, one list of outputs per index. *)
Lemma loop_ok (clean_texts : list str) (max_length batch_size : Z)
    (indices : list Z) (results : list SentimentResult) st :
  port_loads load_pipeline -> port_answers call_many ->
  exists outputs rs st',
    for_each indices
      (predict_chunk unicode_upper perf_counter load_pipeline call_many
         clean_texts max_length batch_size) results st
    = (inr (results ++ rs), st')
    /\ same_thresholds (self st) (self st')
    /\ batches_of (trace st')
       = batches_of (trace st)
         ++ map (fun i => Py.slice clean_texts i (i + batch_size)) indices
    /\ Forall2
         (fun i outs =>
            let batch := Py.slice clean_texts i (i + batch_size) in
            length outs = length batch
            /\ exists pipe w,
                 fst (call_many pipe batch max_length w) = inr outs)
         indices outputs
    /\ Forall2 (derived_from unicode_upper (self st)) (concat outputs) rs.
Proof.
  intros L C. revert results st.
  induction indices as [|i indices IH]; intros results st.
  - exists [], [], st. cbn [map]. rewrite !app_nil_r.
    repeat split; constructor.
  - destruct (chunk_ok clean_texts max_length batch_size i results st L C)
      as (outs & rs1 & st1 & E1 & T1 & B1 & Hlen & Hcall & F1).
    destruct (IH (results ++ rs1) st1)
      as (outputs & rs2 & st2 & E2 & T2 & B2 & Hall & F2).
    exists (outs :: outputs), (rs1 ++ rs2), st2.
    split; [|split; [|split; [|split]]].
    + cbn [for_each]. unfold bind at 1. rewrite E1, E2.
      now rewrite <- app_assoc.
    + exact (same_thresholds_trans _ _ _ T1 T2).
    + rewrite B2, B1. cbn [map]. now rewrite <- app_assoc.
    + constructor; [now split | exact Hall].
    + cbn [concat]. apply Forall2_app; [exact F1|].
      eapply Forall2_impl; [|exact F2]. intros out r.
      apply derived_from_same_thresholds.
      destruct T1 as [Hp Hn]. now split.
Qed.

(** *** [batch_predict] *)

Lemma filter_has_content (texts : list str) (t : str) :
  In t (filter has_content texts) <-> In t texts /\ ~ blank t.
Proof. now rewrite filter_In, StrFacts.has_content_iff. Qed.

(** Outputs that come one per text of each chunk are as many as the
    texts. *)
Lemma outputs_length {X : Type} (batch_of : Z -> list str)
    (Q : Z -> list X -> Prop) (indices : list Z) (outputs : list (list X)) :
  Forall2 (fun i outs => length outs = length (batch_of i) /\ Q i outs)
    indices outputs ->
  length (concat outputs) = length (concat (map batch_of indices)).
Proof.
  induction 1 as [|i outs indices outputs [Hlen _] _ IH].
  - reflexivity.
  - cbn [map concat]. now rewrite !length_app, Hlen, IH.
Qed.

(** When the port is a function of each text, the outputs of the chunks
    are the outputs of the texts. *)
Lemma outputs_classified (classify : str -> Z -> list score_dict)
    (max_length : Z) (batch_of : Z -> list str) (indices : list Z)
    (outputs : list (list (list score_dict))) :
  port_classifies classify call_many ->
  Forall2
    (fun i outs =>
       length outs = length (batch_of i)
       /\ exists pipe w,
            fst (call_many pipe (batch_of i) max_length w) = inr outs)
    indices outputs ->
  concat outputs
  = map (fun t => classify t max_length) (concat (map batch_of indices)).
Proof.
  intros D. induction 1 as [|i outs indices outputs [_ Hcall] _ IH].
  - reflexivity.
  - destruct Hcall as (pipe & w & Hcall). rewrite D in Hcall.
    injection Hcall as <-. cbn [map concat]. now rewrite map_app, IH.
Qed.

Lemma Forall2_of_map {X Y Z' : Type} (f : X -> Y) (R : Y -> Z' -> Prop)
    (l : list X) (rs : list Z') :
  Forall2 R (map f l) rs -> Forall2 (fun x r => R (f x) r) l rs.
Proof.
  revert rs. induction l as [|x l IH]; intros rs H; inversion H; subst.
  - constructor.
  - constructor; [assumption | now apply IH].
Qed.

(** A port that is a function of each text, with non-empty answers, keeps
    the port's contract. *)
Lemma classifies_answers (classify : str -> Z -> list score_dict) :
  port_classifies classify call_many ->
  (forall t max_length, classify t max_length <> []) ->
  port_answers call_many.
Proof.
  intros D Hne pipe batch max_length w. specialize (D pipe batch max_length w).
  destruct (call_many pipe batch max_length w) as [r w']. cbn [fst] in D.
  subst r. eexists _, w'. split; [reflexivity|]. split.
  - apply length_map.
  - apply Forall_forall. intros out Hin.
    apply in_map_iff in Hin as (t & <- & _). apply Hne.
Qed.

(** C5, as the code has it. [batch_predict] keeps the texts that are not
    blank. It raises its [ValueError] exactly when none is left, and then
    at once, the state untouched. When some text is left it returns one
    result per text kept provided the batch size is positive and the port
    keeps its contract: nothing in the method checks the batch size, and on
    one that is not positive no chunk is ever formed. *)
Theorem batch_predict_filter (texts : list str) (max_length batch_size : Z)
    st :
  let clean_texts := filter has_content texts in
  let run :=
    batch_predict unicode_upper perf_counter load_pipeline call_many
      texts max_length batch_size st in
  (forall t, In t clean_texts <-> In t texts /\ ~ blank t)
  /\ (clean_texts = [] <-> fst run = inl InvalidInputError_no_valid_texts)
  /\ (clean_texts = [] -> snd run = st)
  /\ (clean_texts <> [] -> (0 < batch_size)%Z ->
      port_loads load_pipeline -> port_answers call_many ->
      exists results st',
        run = (inr results, st') /\ length results = length clean_texts).
Proof.
  intros clean_texts run.
  split; [intros t; apply filter_has_content|].
  subst run. unfold batch_predict. fold clean_texts.
  destruct clean_texts as [|t0 clean] eqn:Eclean; cbn [Py.truthy negb].
  - repeat split; congruence.
  - rewrite <- Eclean. split; [|split; [congruence|]].
    + split; [congruence|]. intros E. exfalso. revert E.
      unfold bind at 1. unfold lift at 1.
      destruct (Py.range 0 (len clean_texts) batch_size) as [e|indices]
        eqn:R.
      * unfold Py.range in R. destruct (batch_size =? 0)%Z; [|discriminate].
        injection R as <-. intros E. cbn [fst] in E.
        apply range_error_not_no_valid_texts. congruence.
      * intros E. apply loop_error in E as [[msg E]|E]; [discriminate|].
        apply max_error_not_no_valid_texts. congruence.
    + intros _ Hb L C.
      destruct (ChunkFacts.range_chunks (len clean_texts) batch_size Hb)
        as (m & R & _); [unfold len; lia|].
      pose proof (ChunkFacts.chunks_partition clean_texts batch_size Hb)
        as [Hcat _].
      unfold chunks in Hcat. unfold bind at 1. unfold lift at 1.
      rewrite R in *.
      match goal with
      | |- context [for_each ?indices _ [] st] =>
          destruct (loop_ok clean_texts max_length batch_size indices [] st
                      L C) as (outputs & rs & st' & E & _ & _ & Hall & F)
      end.
      exists rs, st'. split; [exact E|].
      apply Forall2_length in F. rewrite <- F.
      rewrite (outputs_length _ _ _ _ Hall). now rewrite Hcat.
Qed.

(** C6. For a positive batch size and a port that answers each text the
    same in whatever chunk it arrives: the chunks handed to the pipeline
    are consecutive blocks of the kept texts, of at most [batch_size] texts
    each, which put end to end are the kept texts in their order; and the
    results come one per kept text, the i-th derived from the i-th text's
    output. *)
Theorem batch_predict_order (classify : str -> Z -> list score_dict)
    (texts : list str) (max_length batch_size : Z) st :
  let clean_texts := filter has_content texts in
  (0 < batch_size)%Z -> clean_texts <> [] ->
  port_loads load_pipeline -> port_classifies classify call_many ->
  (forall t ml, classify t ml <> []) ->
  concat (chunks clean_texts batch_size) = clean_texts
  /\ Forall (fun batch => (0 < len batch <= batch_size)%Z)
            (chunks clean_texts batch_size)
  /\ exists results st',
       batch_predict unicode_upper perf_counter load_pipeline call_many
         texts max_length batch_size st
       = (inr results, st')
       /\ batches_of (trace st')
          = batches_of (trace st) ++ chunks clean_texts batch_size
       /\ Forall2
            (fun t r =>
               derived_from unicode_upper (self st)
                 (classify t max_length) r)
            clean_texts results.
Proof.
  intros clean_texts Hb Hne L D Hcl.
  pose proof (classifies_answers classify D Hcl) as C.
  destruct (ChunkFacts.chunks_partition clean_texts batch_size Hb)
    as [Hcat Hsize].
  split; [exact Hcat|]. split; [exact Hsize|].
  unfold batch_predict. fold clean_texts.
  destruct clean_texts as [|t0 clean] eqn:Eclean; [contradiction|].
  cbn [Py.truthy negb]. rewrite <- Eclean in *.
  destruct (ChunkFacts.range_chunks (len clean_texts) batch_size Hb)
    as (m & R & _); [unfold len; lia|].
  unfold chunks in *. unfold bind at 1. unfold lift at 1. rewrite R in *.
  match goal with
  | |- context [for_each ?indices _ [] st] =>
      destruct (loop_ok clean_texts max_length batch_size indices [] st
                  L C) as (outputs & rs & st' & E & _ & B & Hall & F)
  end.
  exists rs, st'. split; [exact E|]. split; [exact B|].
  rewrite (outputs_classified classify max_length _ _ _ D Hall) in F.
  rewrite Hcat in F. now apply Forall2_of_map.
Qed.

End Prediction.

(** ** Worked examples on the stub runtime *)

Lemma stub_loads : port_loads Stub.load_pipeline.
Proof. intros name dev w. now exists tt, w. Qed.

Lemma stub_classify_nonempty (t : str) (max_length : Z) :
  Stub.classify t max_length <> [].
Proof. unfold Stub.classify. now destruct (Str.contains _ t). Qed.

Lemma stub_classifies : port_classifies Stub.classify Stub.call_many.
Proof. intros pipe batch max_length w. reflexivity. Qed.

Lemma stub_answers : port_answers Stub.call_many.
Proof.
  intros pipe batch max_length w. eexists _, w.
  split; [reflexivity|]. split; [apply length_map|].
  apply Forall_forall. intros out Hin.
  apply in_map_iff in Hin as (t & <- & _). apply stub_classify_nonempty.
Qed.

(** [("HAPPY", 0.9), ("SAD", 0.1)] with the default thresholds is POSITIVE
    with confidence 0.9, and an exact tie at thresholds of 0.5 is
    POSITIVE. *)
Lemma derive_positive_example :
  _derive_three_class Stub.unicode_upper Stub.analyzer
    [mk_score HAPPY 0.9; mk_score SAD 0.1]
  = inr (POSITIVE, 0.9%float)
  /\ _derive_three_class Stub.unicode_upper
       (mk_analyzer DEFAULT_MODEL 0.5 0.5 (-1) (@None Stub.Pipeline))
       [mk_score HAPPY 0.5; mk_score SAD 0.5]
     = inr (POSITIVE, 0.5%float).
Proof.
  split.
  - apply (proj1 (derive_positive Stub.unicode_upper Stub.analyzer
                    (mk_score HAPPY 0.9) (mk_score SAD 0.1) []));
      reflexivity.
  - apply (proj2 (derive_positive Stub.unicode_upper
                    (mk_analyzer DEFAULT_MODEL 0.5 0.5 (-1)
                       (@None Stub.Pipeline))
                    (mk_score HAPPY 0.5) (mk_score SAD 0.5) []));
      reflexivity.
Defined.

(** [("SAD", 0.8), ("HAPPY", 0.2)] is NEGATIVE with confidence 0.8. *)
Lemma derive_negative_example :
  _derive_three_class Stub.unicode_upper Stub.analyzer
    [mk_score SAD 0.8; mk_score HAPPY 0.2]
  = inr (NEGATIVE, 0.8%float).
Proof.
  apply (derive_negative Stub.unicode_upper Stub.analyzer
           (mk_score SAD 0.8) (mk_score HAPPY 0.2) []); reflexivity.
Defined.

(** [("HAPPY", 0.5), ("SAD", 0.5)] clears neither threshold: NEUTRAL with
    confidence 0.5. *)
Lemma derive_neutral_example :
  _derive_three_class Stub.unicode_upper Stub.analyzer
    [mk_score HAPPY 0.5; mk_score SAD 0.5]
  = inr (NEUTRAL, 0.5%float).
Proof.
  apply (derive_neutral Stub.unicode_upper Stub.analyzer
           (mk_score HAPPY 0.5) (mk_score SAD 0.5) []); reflexivity.
Defined.

(** The confidence of [("SAD", 0.8), ("HAPPY", 0.2)] is the greater
    probability. *)
Lemma derive_confidence_example :
  exists category confidence,
    _derive_three_class Stub.unicode_upper Stub.analyzer
      [mk_score SAD 0.8; mk_score HAPPY 0.2]
    = inr (category, confidence)
    /\ float_eq confidence (Float.max 0.8 0.2).
Proof.
  destruct (derive_confidence_is_max Stub.unicode_upper Stub.analyzer
              (mk_score SAD 0.8) (mk_score HAPPY 0.2) []
              eq_refl eq_refl) as (category & confidence & E & M & _).
  exists category, confidence. split; [exact E | exact M].
Defined.

(** A single entry goes through the fallback. *)
Lemma derive_fallback_example :
  exists best,
    In best [mk_score SAD 0.7]
    /\ Forall (fun s => Float.gtb (score s) (score best) = false)
         [mk_score SAD 0.7]
    /\ _derive_three_class Stub.unicode_upper Stub.analyzer
         [mk_score SAD 0.7]
       = inr (_map_label_to_persian Stub.unicode_upper (label best),
              score best).
Proof.
  apply (proj1 (derive_fallback Stub.unicode_upper Stub.analyzer)).
  - reflexivity.
  - discriminate.
Defined.

Lemma derive_total_example :
  exists category confidence,
    _derive_three_class Stub.unicode_upper Stub.analyzer
      [mk_score HAPPY 0.3; mk_score SAD 0.3; mk_score (lit "OTHER") 0.4]
    = inr (category, confidence).
Proof.
  apply (proj1 (derive_total Stub.unicode_upper Stub.analyzer)).
  discriminate.
Defined.

(** C8 as stated fails on a label with keywords of both sets: "pos_neg"
    contains "NEG" once uppercased and is mapped to POSITIVE, not to
    NEGATIVE. *)
Lemma map_label_both_keywords :
  substring NEG (Str.upper Stub.unicode_upper (lit "pos_neg"))
  /\ _map_label_to_persian Stub.unicode_upper (lit "pos_neg") = POSITIVE
  /\ _map_label_to_persian Stub.unicode_upper (lit "pos_neg") <> NEGATIVE.
Proof.
  split; [|split].
  - now exists (lit "POS_"), [].
  - reflexivity.
  - discriminate.
Qed.

(** "Negative" holds no positive keyword and holds "NEG" up to case. *)
Lemma map_label_example :
  _map_label_to_persian Stub.unicode_upper (lit "Negative") = NEGATIVE.
Proof.
  destruct (map_label_first_match Stub.unicode_upper (lit "Negative"))
    as (_ & Hneg & _ & Hcase).
  apply Hneg.
  - intros [H | H]; apply StrFacts.contains_iff in H; discriminate.
  - right. apply Hcase.
    + repeat constructor.
    + simpl. tauto.
    + now exists (lit ""), (lit "Neg"), (lit "ative").
Defined.

(** [predict("   ")] raises at once; [predict(" good ")] does not raise
    that error. *)
Lemma predict_guard_example :
  predict Stub.unicode_upper Stub.perf_counter Stub.load_pipeline
    Stub.call_one (lit "   ") 512 Stub.start
  = (inl InvalidInputError_empty_text, Stub.start)
  /\ fst (predict Stub.unicode_upper Stub.perf_counter Stub.load_pipeline
            Stub.call_one (lit " good ") 512 Stub.start)
     <> inl InvalidInputError_empty_text.
Proof.
  split.
  - apply (proj1 (predict_guard Stub.unicode_upper Stub.perf_counter
                    Stub.load_pipeline Stub.call_one (lit "   ") 512
                    Stub.start)).
    repeat constructor.
  - pose proof (proj2 (predict_guard Stub.unicode_upper Stub.perf_counter
                         Stub.load_pipeline Stub.call_one (lit " good ")
                         512 Stub.start)) as H.
    destruct (predict _ _ _ _ (lit " good ") 512 Stub.start) as [r st'].
    apply H. intros B. apply StrFacts.guard_iff in B. discriminate.
Defined.

(** [batch_predict(["", "valid text"])] returns exactly one result. *)
Lemma batch_predict_filter_example :
  exists results st',
    batch_predict Stub.unicode_upper Stub.perf_counter Stub.load_pipeline
      Stub.call_many [lit ""; lit "valid text"] 512 32 Stub.start
    = (inr results, st')
    /\ length results = 1%nat.
Proof.
  apply (proj2 (proj2 (proj2
           (batch_predict_filter Stub.unicode_upper Stub.perf_counter
              Stub.load_pipeline Stub.call_many
              [lit ""; lit "valid text"] 512 32 Stub.start)))).
  - discriminate.
  - reflexivity.
  - exact stub_loads.
  - exact stub_answers.
Defined.

(** C5 as stated fails when the batch size is not positive:
    [batch_predict(["", "valid text"], batch_size=-1)] keeps one valid
    text, raises nothing and returns no result for it; with a batch size
    of zero it raises the [ValueError] of [range], which is not the one
    for no valid text. *)
Lemma batch_predict_negative_batch_size :
  filter has_content [lit ""; lit "valid text"] = [lit "valid text"]
  /\ batch_predict Stub.unicode_upper Stub.perf_counter Stub.load_pipeline
       Stub.call_many [lit ""; lit "valid text"] 512 (-1) Stub.start
     = (inr [], Stub.start)
  /\ batch_predict Stub.unicode_upper Stub.perf_counter Stub.load_pipeline
       Stub.call_many [lit ""; lit "valid text"] 512 0 Stub.start
     = (inl (ValueError MSG_RANGE_STEP), Stub.start)
  /\ ValueError MSG_RANGE_STEP <> InvalidInputError_no_valid_texts.
Proof.
  split; [reflexivity|]. split; [reflexivity|]. split; [reflexivity|].
  discriminate.
Qed.

(** Three valid texts in chunks of two: two calls, three results in the
    order of the texts. *)
Lemma batch_predict_order_example :
  exists results st',
    batch_predict Stub.unicode_upper Stub.perf_counter Stub.load_pipeline
      Stub.call_many [lit "bad"; lit " "; lit "good"; lit "so so"] 512 2
      Stub.start
    = (inr results, st')
    /\ batches_of (trace st')
       = [[lit "bad"; lit "good"]; [lit "so so"]]
    /\ Forall2
         (fun t r =>
            derived_from Stub.unicode_upper Stub.analyzer
              (Stub.classify t 512) r)
         [lit "bad"; lit "good"; lit "so so"] results.
Proof.
  apply (batch_predict_order Stub.unicode_upper Stub.perf_counter
           Stub.load_pipeline Stub.call_many Stub.classify
           [lit "bad"; lit " "; lit "good"; lit "so so"] 512 2 Stub.start).
  - reflexivity.
  - discriminate.
  - exact stub_loads.
  - exact stub_classifies.
  - exact stub_classify_nonempty.
Defined.

(** * Further properties *)

(** ** Floats that are not numbers *)

Module FloatNaN.

Local Open Scope float_scope.

Lemma SFcompare_diag (x : spec_float) :
  SFcompare x x = match x with S754_nan => None | _ => Some Eq end.
Proof.
  destruct x as [s | s | | s m e]; simpl; try reflexivity.
  - now destruct s.
  - rewrite Z.compare_refl.
    change (Pos.compare_cont Eq m m) with (Pos.compare m m).
    rewrite Pos.compare_refl. now destruct s.
Qed.

(** A NaN compares with nothing. *)
Lemma nan_cmp (x y : float) :
  PrimFloat.is_nan x = true ->
  Float.cmp x y = None /\ Float.cmp y x = None.
Proof.
  unfold PrimFloat.is_nan. rewrite FloatFacts.eqb_cmp. unfold Float.cmp.
  rewrite SFcompare_diag. intros H.
  destruct (Prim2SF x); try discriminate.
  split; [reflexivity | now destruct (Prim2SF y)].
Qed.

(** Every comparison with a NaN is false. *)
Lemma nan_compares_false (x y : float) :
  PrimFloat.is_nan x = true \/ PrimFloat.is_nan y = true ->
  Float.geb x y = false /\ Float.gtb x y = false.
Proof.
  unfold Float.geb, Float.gtb.
  rewrite FloatFacts.leb_cmp, FloatFacts.ltb_cmp.
  intros [H | H].
  - destruct (nan_cmp x y H) as [_ ->]. now split.
  - destruct (nan_cmp y x H) as [-> _]. now split.
Qed.

End FloatNaN.

(** ** More on the decision rule *)

Section DecisionRuleMore.

Context (unicode_upper : N -> list N) {Pipeline : Type}.

Implicit Types (self : SentimentAnalyzer Pipeline) (s : score_dict).
Implicit Types (scores rest : list score_dict).

(** The mapping has three values. *)
Lemma map_label_range (raw : str) :
  In (_map_label_to_persian unicode_upper raw) [POSITIVE; NEGATIVE; NEUTRAL].
Proof.
  unfold _map_label_to_persian.
  destruct (Str.contains HAPPY _ || Str.contains POS _);
    [|destruct (Str.contains SAD _ || Str.contains NEG _)];
    simpl; tauto.
Qed.

(** The test the two-class rule makes on the first label is the test
    [_map_label_to_persian] makes first. *)
Lemma map_label_positive_iff (raw : str) :
  _map_label_to_persian unicode_upper raw = POSITIVE
  <-> Str.contains HAPPY (Str.upper unicode_upper raw)
      || Str.contains POS (Str.upper unicode_upper raw) = true.
Proof.
  unfold _map_label_to_persian.
  destruct (Str.contains HAPPY _ || Str.contains POS _);
    [|destruct (Str.contains SAD _ || Str.contains NEG _)];
    split; try reflexivity; discriminate.
Qed.

Lemma decide_range self (pos_prob neg_prob : float) :
  In (fst (decide self (pos_prob, neg_prob))) [POSITIVE; NEGATIVE; NEUTRAL]
  /\ (snd (decide self (pos_prob, neg_prob)) = pos_prob
      \/ snd (decide self (pos_prob, neg_prob)) = neg_prob).
Proof.
  unfold decide, Float.max.
  destruct (Float.geb pos_prob _ && Float.geb pos_prob neg_prob);
    [|destruct (Float.geb neg_prob _ && Float.gtb neg_prob pos_prob)];
    cbn [fst snd]; (split; [simpl; tauto|]); try tauto.
  destruct (Float.gtb neg_prob pos_prob); tauto.
Qed.

(** The rule announces one of the three labels. *)
Lemma derive_label_in self scores (category : str) (confidence : float) :
  _derive_three_class unicode_upper self scores
  = inr (category, confidence) ->
  In category [POSITIVE; NEGATIVE; NEUTRAL].
Proof.
  destruct scores as [|s0 [|s1 rest]].
  - rewrite derive_nil. discriminate.
  - cbn. intros [= <- <-]. apply map_label_range.
  - rewrite derive_two. intros [= E].
    pose proof (decide_range self
                  (fst (pos_neg_prob unicode_upper s0 s1))
                  (snd (pos_neg_prob unicode_upper s0 s1))) as [R _].
    rewrite <- surjective_pairing, E in R. exact R.
Qed.

(** X1. Whatever the rule returns, the label is one of the three labels of
    the dashboard and the confidence is the score of one of the entries
    the rule looked at: the first two, or the only one. *)
Theorem derive_range self scores (category : str) (confidence : float) :
  _derive_three_class unicode_upper self scores
  = inr (category, confidence) ->
  In category [POSITIVE; NEGATIVE; NEUTRAL]
  /\ exists s, In s (firstn 2 scores) /\ confidence = score s.
Proof.
  destruct scores as [|s0 [|s1 rest]].
  - rewrite derive_nil. discriminate.
  - cbn. intros [= <- <-]. split; [apply map_label_range|].
    exists s0. split; [now left | reflexivity].
  - rewrite derive_two. intros [= E].
    pose proof (decide_range self
                  (fst (pos_neg_prob unicode_upper s0 s1))
                  (snd (pos_neg_prob unicode_upper s0 s1))) as [R C].
    rewrite <- surjective_pairing, E in R, C. cbn [fst snd] in R, C.
    split; [exact R|]. cbn [firstn].
    unfold pos_neg_prob in C.
    destruct (Str.contains HAPPY _ || Str.contains POS _);
      cbn [fst snd] in C; destruct C as [-> | ->];
      ((now exists s0; split; [left|]) || (now exists s1; split; [right; left|])).
Qed.

(** X2. With two entries or more the label tells which test fired:
    POSITIVE exactly when [pos_prob >= positive_threshold and pos_prob >=
    neg_prob]; NEGATIVE exactly when that test failed and [neg_prob >=
    negative_threshold and neg_prob > pos_prob]; NEUTRAL exactly when both
    failed. So a class below its threshold is never announced. *)
Theorem derive_label_iff self s0 s1 rest (category : str)
    (confidence : float) :
  let pos_prob := fst (pos_neg_prob unicode_upper s0 s1) in
  let neg_prob := snd (pos_neg_prob unicode_upper s0 s1) in
  let first :=
    Float.geb pos_prob (positive_threshold self)
    && Float.geb pos_prob neg_prob in
  let second :=
    Float.geb neg_prob (negative_threshold self)
    && Float.gtb neg_prob pos_prob in
  _derive_three_class unicode_upper self (s0 :: s1 :: rest)
  = inr (category, confidence) ->
  (category = POSITIVE <-> first = true)
  /\ (category = NEGATIVE <-> first = false /\ second = true)
  /\ (category = NEUTRAL <-> first = false /\ second = false).
Proof.
  intros pos_prob neg_prob first second. rewrite derive_two.
  pose proof labels_distinct as (Dpn & Dpu & Dnu).
  subst first second pos_prob neg_prob.
  destruct (pos_neg_prob unicode_upper s0 s1) as [p n]. cbn [fst snd].
  unfold decide.
  destruct (Float.geb p _ && Float.geb p n);
    [|destruct (Float.geb n _ && Float.gtb n p)];
    intros [= <- <-]; repeat split; try congruence;
    intros [? ?]; congruence.
Qed.

(** X3. When one of the two first scores is NaN every comparison fails and
    the answer is NEUTRAL. *)
Theorem derive_nan_neutral self s0 s1 rest :
  PrimFloat.is_nan (score s0) = true \/ PrimFloat.is_nan (score s1) = true ->
  exists confidence,
    _derive_three_class unicode_upper self (s0 :: s1 :: rest)
    = inr (NEUTRAL, confidence).
Proof.
  intros H. rewrite derive_two.
  assert (Hpn : (PrimFloat.is_nan (fst (pos_neg_prob unicode_upper s0 s1))
                 = true
                 \/ PrimFloat.is_nan (snd (pos_neg_prob unicode_upper s0 s1))
                    = true)).
  { unfold pos_neg_prob.
    destruct (Str.contains HAPPY _ || Str.contains POS _); cbn [fst snd];
      tauto. }
  destruct (pos_neg_prob unicode_upper s0 s1) as [p n]. cbn [fst snd] in Hpn.
  unfold decide.
  assert (Hpn' : PrimFloat.is_nan n = true \/ PrimFloat.is_nan p = true)
    by tauto.
  destruct (FloatNaN.nan_compares_false p n Hpn) as [-> _].
  destruct (FloatNaN.nan_compares_false n p Hpn') as [_ ->].
  rewrite !andb_false_r. now eexists.
Qed.

(** X4. When exactly one of two entries carries a positive label (as
    [_map_label_to_persian] judges it), the order in which the two come
    does not matter. *)
Theorem derive_order_insensitive self s0 s1 rest (others : list score_dict) :
  _map_label_to_persian unicode_upper (label s0) = POSITIVE ->
  _map_label_to_persian unicode_upper (label s1) <> POSITIVE ->
  _derive_three_class unicode_upper self (s0 :: s1 :: rest)
  = _derive_three_class unicode_upper self (s1 :: s0 :: others).
Proof.
  intros H0 H1. rewrite !derive_two. f_equal. f_equal.
  apply map_label_positive_iff in H0.
  rewrite map_label_positive_iff in H1. apply not_true_is_false in H1.
  unfold pos_neg_prob. now rewrite H0, H1.
Qed.

End DecisionRuleMore.

(** ** What the methods do to the analyzer *)

Section StateFacts.

Context (unicode_upper : N -> list N) {World Pipeline : Type}.
Context (perf_counter : World -> float * World).
Context (load_pipeline : str -> Z -> World -> (str + Pipeline) * World).
Context (call_one :
  Pipeline -> str -> Z -> World -> (str + list score_dict) * World).
Context (call_many :
  Pipeline -> list str -> Z -> World
  -> (str + list (list score_dict)) * World).

Implicit Types (st : state World Pipeline) (text : str).

Lemma loads_of_app (log more : list event) :
  loads_of (log ++ more) = loads_of log ++ loads_of more.
Proof. apply flat_map_app. Qed.

Lemma same_config_refl (a : SentimentAnalyzer Pipeline) : same_config a a.
Proof. now repeat split. Qed.

Lemma evolves_refl st : evolves st st.
Proof.
  split; [apply same_config_refl|]. split.
  - exists []. now rewrite app_nil_r.
  - now intros pipe _.
Qed.

Lemma evolves_trans st st1 st2 :
  evolves st st1 -> evolves st1 st2 -> evolves st st2.
Proof.
  intros (C1 & [l1 T1] & K1) (C2 & [l2 T2] & K2). split; [|split].
  - unfold same_config in *. intuition congruence.
  - exists (l1 ++ l2). now rewrite T2, T1, app_assoc.
  - intros pipe H. destruct (K1 pipe H) as [S1 L1].
    rewrite S1 in K2. destruct (K2 pipe H) as [S2 L2].
    split; congruence.
Qed.

(** A step that keeps the analyzer and logs no request to build a
    pipeline makes the state evolve. *)
Lemma evolves_logged st (w : World) (log : list event) :
  loads_of log = [] ->
  evolves st (mk_state (self st) w (trace st ++ log)).
Proof.
  intros H. split; [apply same_config_refl|]. split; [now exists log|].
  intros pipe _. cbn [self trace]. split; [reflexivity|].
  now rewrite loads_of_app, H, app_nil_r.
Qed.

Lemma steady_ret {A : Type} (a : A) : steady (ret World Pipeline a).
Proof. intros st. apply evolves_refl. Qed.

Lemma steady_raise {A : Type} (e : exn) :
  steady (@raise World Pipeline A e).
Proof. intros st. apply evolves_refl. Qed.

Lemma steady_lift {A : Type} (r : exn + A) : steady (lift World Pipeline r).
Proof. intros st. apply evolves_refl. Qed.

Lemma steady_bind {A B : Type} (m : M World Pipeline A)
    (f : A -> M World Pipeline B) :
  steady m -> (forall a, steady (f a)) -> steady (bind World Pipeline m f).
Proof.
  intros Hm Hf st. unfold bind. specialize (Hm st).
  destruct (m st) as [[e|a] st1]; cbn [snd] in *; [exact Hm|].
  eapply evolves_trans; [exact Hm | apply Hf].
Qed.

Lemma steady_for_each {I A : Type} (items : list I)
    (body : I -> A -> M World Pipeline A) (acc : A) :
  (forall x a, steady (body x a)) -> steady (for_each items body acc).
Proof.
  intros Hbody. revert acc. induction items as [|x items IH]; intros acc.
  - apply steady_ret.
  - cbn [for_each]. apply steady_bind; [apply Hbody | exact IH].
Qed.

Lemma steady_get_self : steady (@get_self World Pipeline).
Proof. intros st. apply evolves_refl. Qed.

Lemma steady_now : steady (now perf_counter (Pipeline := Pipeline)).
Proof.
  intros st. unfold now. destruct (perf_counter (world st)) as [t w].
  cbn [snd]. rewrite <- (app_nil_r (trace st)). now apply evolves_logged.
Qed.

Lemma steady_run_one (pipe : Pipeline) text (max_length : Z) :
  steady (run_one call_one pipe text max_length).
Proof.
  intros st. unfold run_one.
  destruct (call_one pipe text max_length (world st)) as [r w].
  cbn [snd]. now apply evolves_logged.
Qed.

Lemma steady_run_many (pipe : Pipeline) (batch : list str)
    (max_length : Z) :
  steady (run_many call_many pipe batch max_length).
Proof.
  intros st. unfold run_many.
  destruct (call_many pipe batch max_length (world st)) as [r w].
  cbn [snd]. now apply evolves_logged.
Qed.

(** Building the pipeline is the one step that touches the analyzer, and
    only when none is cached. *)
Lemma steady_pipeline : steady (pipeline load_pipeline).
Proof.
  intros st. unfold pipeline.
  destruct (_pipeline (self st)) as [p|] eqn:Hp; [apply evolves_refl|].
  destruct (load_pipeline _ _ (world st)) as [[msg|p] w]; cbn [snd].
  - split; [apply same_config_refl|]. split; [now eexists|].
    intros pipe H. congruence.
  - split; [now repeat split|]. split; [now eexists|].
    intros pipe H. congruence.
Qed.

Lemma steady_append_result (latency : float) (out : list score_dict)
    (results : list SentimentResult) :
  steady (append_result unicode_upper latency out results
            (World := World) (Pipeline := Pipeline)).
Proof.
  unfold append_result.
  apply steady_bind; [apply steady_get_self|]. intros a.
  apply steady_bind; [apply steady_lift|]. intros [c x]. apply steady_ret.
Qed.

Lemma steady_predict text (max_length : Z) :
  steady (predict unicode_upper perf_counter load_pipeline call_one
            text max_length).
Proof.
  unfold predict.
  destruct (negb (Str.truthy text) || negb (Str.truthy (Str.strip text)));
    [apply steady_raise|].
  apply steady_bind; [apply steady_now|]. intros start.
  apply steady_bind; [apply steady_pipeline|]. intros pipe.
  apply steady_bind; [apply steady_run_one|]. intros outputs.
  apply steady_bind; [apply steady_now|]. intros stop.
  apply steady_bind; [apply steady_get_self|]. intros a.
  apply steady_bind; [apply steady_lift|]. intros [c x]. apply steady_ret.
Qed.

Lemma steady_predict_chunk (clean_texts : list str)
    (max_length batch_size i : Z) (results : list SentimentResult) :
  steady (predict_chunk unicode_upper perf_counter load_pipeline call_many
            clean_texts max_length batch_size i results).
Proof.
  unfold predict_chunk.
  apply steady_bind; [apply steady_now|]. intros start.
  apply steady_bind; [apply steady_pipeline|]. intros pipe.
  apply steady_bind; [apply steady_run_many|]. intros outputs.
  apply steady_bind; [apply steady_now|]. intros stop.
  apply steady_for_each. intros out acc. apply steady_append_result.
Qed.

Lemma steady_batch_predict (texts : list str) (max_length batch_size : Z) :
  steady (batch_predict unicode_upper perf_counter load_pipeline call_many
            texts max_length batch_size).
Proof.
  unfold batch_predict.
  destruct (negb (Py.truthy (filter has_content texts)));
    [apply steady_raise|].
  apply steady_bind; [apply steady_lift|]. intros indices.
  apply steady_for_each. intros i acc. apply steady_predict_chunk.
Qed.

(** X5. Whatever the port does and whether they return or raise,
    [predict] and [batch_predict] leave the model name, the thresholds and
    the device as they found them, and only add to the log of requests. *)
Theorem prediction_keeps_config st text (texts : list str)
    (max_length batch_size : Z) :
  let st1 :=
    snd (predict unicode_upper perf_counter load_pipeline call_one
           text max_length st) in
  let st2 :=
    snd (batch_predict unicode_upper perf_counter load_pipeline call_many
           texts max_length batch_size st) in
  (same_config (self st) (self st1)
   /\ exists log, trace st1 = trace st ++ log)
  /\ (same_config (self st) (self st2)
      /\ exists log, trace st2 = trace st ++ log).
Proof.
  intros st1 st2.
  destruct (steady_predict text max_length st) as (C1 & T1 & _).
  destruct (steady_batch_predict texts max_length batch_size st)
    as (C2 & T2 & _).
  split; split; assumption.
Qed.

(** X6. Once a pipeline is cached it is cached for good: [predict] and
    [batch_predict] leave the analyzer exactly as it is and ask for no
    pipeline to be built, whatever the port does. *)
Theorem pipeline_cached_for_good st (pipe : Pipeline) text
    (texts : list str) (max_length batch_size : Z) :
  _pipeline (self st) = Some pipe ->
  let st1 :=
    snd (predict unicode_upper perf_counter load_pipeline call_one
           text max_length st) in
  let st2 :=
    snd (batch_predict unicode_upper perf_counter load_pipeline call_many
           texts max_length batch_size st) in
  (self st1 = self st /\ loads_of (trace st1) = loads_of (trace st))
  /\ (self st2 = self st /\ loads_of (trace st2) = loads_of (trace st)).
Proof.
  intros H st1 st2.
  destruct (steady_predict text max_length st) as (_ & _ & K1).
  destruct (steady_batch_predict texts max_length batch_size st)
    as (_ & _ & K2).
  split; [exact (K1 pipe H) | exact (K2 pipe H)].
Qed.

(** The first thing [predict_chunk] does with no pipeline cached is to
    have one built, which stays cached whatever comes next. *)
Lemma chunk_first_use (clean_texts : list str) (max_length batch_size i : Z)
    (results : list SentimentResult) st :
  _pipeline (self st) = None -> port_loads load_pipeline ->
  let st' :=
    snd (predict_chunk unicode_upper perf_counter load_pipeline call_many
           clean_texts max_length batch_size i results st) in
  (exists pipe, _pipeline (self st') = Some pipe)
  /\ loads_of (trace st')
     = loads_of (trace st) ++ [(model_name (self st), device (self st))].
Proof.
  intros Hnone L st'.
  assert (Est : st' = snd (predict_chunk unicode_upper perf_counter
                             load_pipeline call_many clean_texts max_length
                             batch_size i results st)) by reflexivity.
  clearbody st'. revert Est.
  unfold predict_chunk. unfold bind at 1. unfold now at 1.
  destruct (perf_counter (world st)) as [t0 w0]. unfold bind at 1.
  unfold pipeline at 1. cbn [self world trace]. rewrite Hnone.
  destruct (L (model_name (self st)) (device (self st)) w0)
    as (pipe & w1 & ->).
  cbv beta iota.
  match goal with
  | |- context [bind _ _ ?m ?f ?s] =>
      assert (E : evolves s (snd (bind _ _ m f s)))
  end.
  { apply steady_bind; [apply steady_run_many|]. intros outputs.
    apply steady_bind; [apply steady_now|]. intros stop.
    apply steady_for_each. intros out acc. apply steady_append_result. }
  destruct E as (_ & _ & K). destruct (K pipe eq_refl) as [S Lo].
  intros ->. rewrite S, Lo. cbn [self trace _pipeline].
  split; [now exists pipe|]. now rewrite loads_of_app.
Qed.

(** X7. With no pipeline cached, a batch with some valid text and a
    positive batch size has the pipeline built once, for the analyzer's
    model name and device, however many chunks follow and whatever the
    calls answer; it is cached when [batch_predict] is over. *)
Theorem batch_loads_once st (texts : list str) (max_length batch_size : Z) :
  _pipeline (self st) = None ->
  filter has_content texts <> [] -> (0 < batch_size)%Z ->
  port_loads load_pipeline ->
  let st' :=
    snd (batch_predict unicode_upper perf_counter load_pipeline call_many
           texts max_length batch_size st) in
  (exists pipe, _pipeline (self st') = Some pipe)
  /\ loads_of (trace st')
     = loads_of (trace st) ++ [(model_name (self st), device (self st))].
Proof.
  intros Hnone Hne Hb L st'.
  assert (Est : st' = snd (batch_predict unicode_upper perf_counter
                             load_pipeline call_many texts max_length
                             batch_size st)) by reflexivity.
  clearbody st'. revert Est. unfold batch_predict.
  destruct (filter has_content texts) as [|t0 clean] eqn:Eclean;
    [contradiction|].
  cbn [Py.truthy negb]. rewrite <- Eclean. clear Hne.
  destruct (ChunkFacts.range_chunks (len (filter has_content texts))
              batch_size Hb) as (m & R & Hcover & _); [unfold len; lia|].
  unfold bind at 1. unfold lift at 1. rewrite R.
  destruct m as [|m].
  { rewrite Eclean in Hcover. unfold len in Hcover. cbn [length] in Hcover.
    lia. }
  cbn [seq map for_each]. unfold bind at 1.
  pose proof (chunk_first_use (filter has_content texts) max_length
                batch_size (Z.of_nat 0 * batch_size) [] st Hnone L)
    as [[pipe Hp] Hl].
  destruct (predict_chunk _ _ _ _ _ _ _ _ [] st) as [[e|acc] st1];
    cbn [snd] in *.
  - intros ->. split; [now exists pipe | exact Hl].
  - match goal with
    | |- context [for_each ?items ?body acc st1] =>
        destruct (steady_for_each items body acc
                    (fun i a => steady_predict_chunk
                                  (filter has_content texts) max_length
                                  batch_size i a) st1) as (_ & _ & K)
    end.
    destruct (K pipe Hp) as [S Lo].
    intros ->. rewrite S, Lo. split; [now exists pipe | exact Hl].
Qed.

End StateFacts.

(** ** More on prediction *)

Section PredictionMore.

Context (unicode_upper : N -> list N) {World Pipeline : Type}.
Context (perf_counter : World -> float * World).
Context (load_pipeline : str -> Z -> World -> (str + Pipeline) * World).
Context (call_one :
  Pipeline -> str -> Z -> World -> (str + list score_dict) * World).
Context (call_many :
  Pipeline -> list str -> Z -> World
  -> (str + list (list score_dict)) * World).

Implicit Types (st : state World Pipeline) (text : str).

(** [predict] on a text with content, when the port answers it with a
    non-empty output: the result is derived from that output. *)
Lemma predict_ok (classify : str -> Z -> list score_dict) text
    (max_length : Z) st :
  ~ blank text -> port_loads load_pipeline ->
  port_classifies_one classify call_one ->
  classify text max_length <> [] ->
  exists r st',
    predict unicode_upper perf_counter load_pipeline call_one
      text max_length st
    = (inr r, st')
    /\ derived_from unicode_upper (self st) (classify text max_length) r.
Proof.
  intros B L D Hne. unfold predict.
  destruct (negb (Str.truthy text) || negb (Str.truthy (Str.strip text)))
    eqn:G; [apply StrFacts.guard_iff in G; contradiction|].
  unfold bind at 1. unfold now at 1.
  destruct (perf_counter (world st)) as [t0 w0]. unfold bind at 1.
  destruct (pipeline_ok load_pipeline (mk_state (self st) w0 (trace st)) L)
    as (pipe & st1 & -> & T1 & _). cbn [self] in T1.
  unfold bind at 1. unfold run_one at 1.
  specialize (D pipe text max_length (world st1)).
  destruct (call_one pipe text max_length (world st1)) as [r w2].
  cbn [fst] in D. subst r. cbn [failure].
  unfold bind at 1. unfold now at 1. cbn [world self trace].
  destruct (perf_counter w2) as [t1 w3].
  unfold bind at 1. unfold get_self at 1. cbn [self].
  unfold bind, lift, ret.
  destruct (derive_nonempty unicode_upper (self st1)
              (classify text max_length) Hne) as (c & x & E).
  rewrite E. eexists _, _. split; [reflexivity|].
  unfold derived_from. cbn [res_label res_score].
  now rewrite (derive_same_thresholds unicode_upper (self st) (self st1)
                 _ T1).
Qed.

Lemma Forall2_with {X Y : Type} (P : X -> Prop) (R : X -> Y -> Prop)
    (l : list X) (rs : list Y) :
  Forall P l -> Forall2 R l rs ->
  Forall2 (fun x r => P x /\ R x r) l rs.
Proof.
  intros HP HR. induction HR as [|x r l rs Hxr _ IH].
  - constructor.
  - inversion HP; subst. constructor; [now split | now apply IH].
Qed.

(** [batch_predict] with the port as a function of each text: one result
    per kept text, derived from the text's output. *)
Lemma batch_predict_ok (classify : str -> Z -> list score_dict)
    (texts : list str) (max_length batch_size : Z) st :
  (0 < batch_size)%Z -> filter has_content texts <> [] ->
  port_loads load_pipeline -> port_classifies classify call_many ->
  (forall t ml, classify t ml <> []) ->
  exists results st',
    batch_predict unicode_upper perf_counter load_pipeline call_many
      texts max_length batch_size st
    = (inr results, st')
    /\ Forall2
         (fun t r =>
            derived_from unicode_upper (self st) (classify t max_length) r)
         (filter has_content texts) results.
Proof.
  intros Hb Hne L D Hcl.
  pose proof (classifies_answers call_many classify D Hcl) as C.
  destruct (ChunkFacts.chunks_partition (filter has_content texts)
              batch_size Hb) as [Hcat _].
  unfold batch_predict.
  destruct (filter has_content texts) as [|t0 clean] eqn:Eclean;
    [contradiction|].
  cbn [Py.truthy negb]. rewrite <- Eclean in *.
  destruct (ChunkFacts.range_chunks (len (filter has_content texts))
              batch_size Hb) as (m & R & _); [unfold len; lia|].
  unfold chunks in *. unfold bind at 1. unfold lift at 1. rewrite R in *.
  match goal with
  | |- context [for_each ?indices _ [] st] =>
      destruct (loop_ok unicode_upper perf_counter load_pipeline call_many
                  (filter has_content texts) max_length batch_size
                  indices [] st L C)
        as (outputs & rs & st' & E & _ & _ & Hall & F)
  end.
  exists rs, st'. split; [exact E|].
  rewrite (outputs_classified call_many classify max_length _ _ _ D Hall)
    in F.
  rewrite Hcat in F. now apply Forall2_of_map.
Qed.

(** X8. Batch and single prediction agree. With a port that answers each
    text the same alone or in a batch, every result of [batch_predict]
    carries the label and the confidence that [predict] gives for the
    same text; latencies apart. *)
Theorem batch_agrees_with_predict (classify : str -> Z -> list score_dict)
    (texts : list str) (max_length batch_size : Z) st :
  (0 < batch_size)%Z -> filter has_content texts <> [] ->
  port_loads load_pipeline ->
  port_classifies classify call_many ->
  port_classifies_one classify call_one ->
  (forall t ml, classify t ml <> []) ->
  exists results st',
    batch_predict unicode_upper perf_counter load_pipeline call_many
      texts max_length batch_size st
    = (inr results, st')
    /\ Forall2
         (fun t r =>
            exists r1 st1,
              predict unicode_upper perf_counter load_pipeline call_one
                t max_length st
              = (inr r1, st1)
              /\ res_label r1 = res_label r /\ res_score r1 = res_score r)
         (filter has_content texts) results.
Proof.
  intros Hb Hne L D D1 Hcl.
  destruct (batch_predict_ok classify texts max_length batch_size st
              Hb Hne L D Hcl) as (results & st' & E & F).
  exists results, st'. split; [exact E|].
  assert (Hvalid : Forall (fun t => ~ blank t) (filter has_content texts)).
  { apply Forall_forall. intros t Ht.
    now apply filter_In, proj2, StrFacts.has_content_iff in Ht. }
  eapply Forall2_impl; [|exact (Forall2_with _ _ _ _ Hvalid F)].
  intros t r [B Hr].
  destruct (predict_ok classify t max_length st B L D1 (Hcl t max_length))
    as (r1 & st1 & E1 & H1).
  exists r1, st1. split; [exact E1|].
  unfold derived_from in *. rewrite Hr in H1. now injection H1.
Qed.

(** X9. A batch size that is not positive, with some valid text: zero
    raises the [ValueError] of [range], a negative one returns the empty
    list; in both cases nothing is asked of the port and the state is
    untouched. *)
Theorem batch_predict_bad_batch_size (texts : list str)
    (max_length batch_size : Z) st :
  filter has_content texts <> [] -> (batch_size <= 0)%Z ->
  batch_predict unicode_upper perf_counter load_pipeline call_many
    texts max_length batch_size st
  = (if (batch_size =? 0)%Z then inl (ValueError MSG_RANGE_STEP)
     else inr [], st).
Proof.
  intros Hne Hb. unfold batch_predict.
  destruct (filter has_content texts) as [|t0 clean]; [contradiction|].
  cbn [Py.truthy negb]. unfold bind, lift, Py.range, Py.range_length.
  destruct (Z.eqb_spec batch_size 0) as [->|Hnz]; [reflexivity|].
  destruct (Z.ltb_spec 0 batch_size); [lia|].
  destruct (Z.ltb_spec (len (t0 :: clean)) 0) as [Hneg|_];
    [unfold len in Hneg; lia|].
  reflexivity.
Qed.

(** X10. The exceptions of the two methods, for a runtime whose answers
    are well formed: a list of dicts, each with a [str] label and a
    [float] score, the failures of the runtime itself counted as such.
    [predict] raises its own [ValueError], the runtime's failure, or the
    [ValueError] of [max] on an answer with no score; [batch_predict]
    raises its own [ValueError], the one of [range] on a zero batch size,
    or one of the same two. In particular the indexing [scores[0]],
    [scores[1]] never raises [IndexError]: it comes after the test on
    [len(scores)]. *)
Theorem prediction_errors text (texts : list str)
    (max_length batch_size : Z) st (e : exn) :
  (fst (predict unicode_upper perf_counter load_pipeline call_one
          text max_length st) = inl e ->
   e = InvalidInputError_empty_text \/ runtime_error e)
  /\ (fst (batch_predict unicode_upper perf_counter load_pipeline call_many
             texts max_length batch_size st) = inl e ->
      e = InvalidInputError_no_valid_texts
      \/ e = ValueError MSG_RANGE_STEP \/ runtime_error e).
Proof.
  split.
  - unfold predict.
    destruct (negb (Str.truthy text) || negb (Str.truthy (Str.strip text))).
    { intros [= <-]. now left. }
    intros E. right. revert E.
    unfold bind at 1. unfold now at 1.
    destruct (perf_counter (world st)) as [t0 w0]. unfold bind at 1.
    pose proof (pipeline_effect load_pipeline
                  (mk_state (self st) w0 (trace st))) as P.
    destruct (pipeline load_pipeline _) as [[e'|pipe] st1].
    { destruct P as (_ & _ & P). intros [= <-]. left. now apply P. }
    clear P. unfold bind at 1. unfold run_one at 1.
    destruct (call_one pipe text max_length (world st1)) as [[msg|outs] w2];
      cbn [failure].
    { intros [= <-]. left. now exists msg. }
    unfold bind at 1. unfold now at 1. cbn [world self trace].
    destruct (perf_counter w2) as [t1 w3].
    unfold bind, get_self, lift, ret. cbn [self].
    destruct (_derive_three_class unicode_upper (self st1) outs)
      as [e'|[c x]] eqn:D.
    + intros [= <-]. right. now apply derive_error in D.
    + discriminate.
  - unfold batch_predict.
    destruct (negb (Py.truthy (filter has_content texts))).
    { intros [= <-]. now left. }
    unfold bind at 1. unfold lift at 1.
    destruct (Py.range 0 _ batch_size) as [e'|indices] eqn:R.
    + unfold Py.range in R. destruct (batch_size =? 0)%Z; [|discriminate].
      injection R as <-. intros [= <-]. right. now left.
    + intros E. right. right. now apply loop_error in E.
Qed.

(** *** Latencies in a batch *)

(** What the inner loop appends carries the latency it was given. *)
Lemma emit_latency (latency : float) (outputs : list (list score_dict))
    (results results' : list SentimentResult) st st' :
  for_each outputs (append_result unicode_upper latency) results st
  = (inr results', st') ->
  exists rs,
    results' = results ++ rs
    /\ Forall (fun r => latency_ms r = latency) rs.
Proof.
  revert results. induction outputs as [|out outputs IH]; intros results.
  - intros [= <- <-]. exists []. split; [now rewrite app_nil_r|constructor].
  - cbn [for_each]. unfold bind at 1. rewrite append_result_eq.
    destruct (_derive_three_class unicode_upper (self st) out)
      as [e|[c x]]; [discriminate|].
    intros E. apply IH in E as (rs & -> & F).
    exists (mk_result c x latency :: rs). split.
    + now rewrite <- app_assoc.
    + now constructor.
Qed.

(** The results a chunk appends share one latency. *)
Lemma chunk_latency (clean_texts : list str) (max_length batch_size i : Z)
    (results results' : list SentimentResult) st st' :
  predict_chunk unicode_upper perf_counter load_pipeline call_many
    clean_texts max_length batch_size i results st
  = (inr results', st') ->
  exists rs latency,
    results' = results ++ rs
    /\ Forall (fun r => latency_ms r = latency) rs.
Proof.
  unfold predict_chunk. unfold bind at 1. unfold now at 1.
  destruct (perf_counter (world st)) as [t0 w0]. unfold bind at 1.
  destruct (pipeline load_pipeline _) as [[e|pipe] st1]; [discriminate|].
  unfold bind at 1. unfold run_many at 1.
  destruct (call_many pipe _ max_length (world st1)) as [[msg|outs] w2];
    cbn [failure]; [discriminate|].
  unfold bind at 1. unfold now at 1. cbn [world self trace].
  destruct (perf_counter w2) as [t1 w3].
  intros E. apply emit_latency in E as (rs & -> & F).
  eexists rs, _. split; [reflexivity | exact F].
Qed.

(** The outer loop, when the port keeps its contract: the results come in
    groups, one per index, as long as the chunk and of one latency. *)
Lemma loop_latency (clean_texts : list str) (max_length batch_size : Z)
    (indices : list Z) (results : list SentimentResult) st :
  port_loads load_pipeline -> port_answers call_many ->
  exists groups st',
    for_each indices
      (predict_chunk unicode_upper perf_counter load_pipeline call_many
         clean_texts max_length batch_size) results st
    = (inr (results ++ concat groups), st')
    /\ Forall2
         (fun i group =>
            length group
            = length (Py.slice clean_texts i (i + batch_size))
            /\ exists latency,
                 Forall (fun r => latency_ms r = latency) group)
         indices groups.
Proof.
  intros L C. revert results st.
  induction indices as [|i indices IH]; intros results st.
  - exists [], st. cbn [concat]. rewrite app_nil_r.
    split; [reflexivity | constructor].
  - destruct (chunk_ok unicode_upper perf_counter load_pipeline call_many
                clean_texts max_length batch_size i results st L C)
      as (outs & rs1 & st1 & E1 & _ & _ & Hlen & _ & F1).
    destruct (chunk_latency _ _ _ _ _ _ _ _ E1) as (rs & lat & Hrs & Hlat).
    apply app_inv_head in Hrs. subst rs.
    destruct (IH (results ++ rs1) st1) as (groups & st2 & E2 & Hall).
    exists (rs1 :: groups), st2. split.
    + cbn [for_each concat]. unfold bind at 1. rewrite E1, E2.
      now rewrite <- app_assoc.
    + constructor; [|exact Hall]. split.
      * apply Forall2_length in F1. congruence.
      * now exists lat.
Qed.

Lemma Forall2_to_map {X Y Z' : Type} (f : X -> Y) (R : Y -> Z' -> Prop)
    (l : list X) (rs : list Z') :
  Forall2 (fun x r => R (f x) r) l rs -> Forall2 R (map f l) rs.
Proof. induction 1; constructor; assumption. Qed.

(** X11. Latencies in a batch are shared by chunk. For a positive batch
    size and a port that keeps its contract, the results come as one group
    per chunk handed to the pipeline, in order, as long as the chunk, and
    all results of a group carry the same [latency_ms]. *)
Theorem batch_latency_by_chunk (texts : list str)
    (max_length batch_size : Z) st :
  (0 < batch_size)%Z -> port_loads load_pipeline -> port_answers call_many ->
  filter has_content texts <> [] ->
  exists groups st',
    batch_predict unicode_upper perf_counter load_pipeline call_many
      texts max_length batch_size st
    = (inr (concat groups), st')
    /\ Forall2
         (fun batch group =>
            length group = length batch
            /\ exists latency,
                 Forall (fun r => latency_ms r = latency) group)
         (chunks (filter has_content texts) batch_size) groups.
Proof.
  intros Hb L C Hne. unfold batch_predict, chunks.
  destruct (filter has_content texts) as [|t0 clean] eqn:Eclean;
    [contradiction|].
  cbn [Py.truthy negb]. rewrite <- Eclean.
  destruct (ChunkFacts.range_chunks (len (filter has_content texts))
              batch_size Hb) as (m & R & _); [unfold len; lia|].
  unfold bind at 1. unfold lift at 1. rewrite R.
  match goal with
  | |- context [for_each ?indices _ [] st] =>
      destruct (loop_latency (filter has_content texts) max_length
                  batch_size indices [] st L C)
        as (groups & st' & E & Hall)
  end.
  exists groups, st'. split; [exact E|].
  now apply (Forall2_to_map
               (fun i => Py.slice (filter has_content texts) i
                           (i + batch_size))).
Qed.

End PredictionMore.

(** ** [utils.py] *)

Module UtilsFacts.

Import Utils.

(** The words of [split], put end to end, are the text without its
    whitespace. *)
Lemma split_from_concat (word s : str) :
  concat (split_from word s)
  = rev word ++ filter (fun c => negb (Str.isspace c)) s.
Proof.
  revert word. induction s as [|c rest IH]; intros word.
  - cbn [split_from filter]. rewrite app_nil_r.
    destruct word; [reflexivity|]. cbn [concat]. apply app_nil_r.
  - cbn [split_from filter]. destruct (Str.isspace c); cbn [negb].
    + destruct word as [|x word]; [apply IH|].
      cbn [concat]. now rewrite IH.
    + rewrite IH. cbn [rev]. now rewrite <- app_assoc.
Qed.

(** Each word holds a character and no whitespace. *)
Lemma split_from_words (word s : str) :
  Forall (fun c => Str.isspace c = false) word ->
  Forall (fun w => w <> [] /\ Forall (fun c => Str.isspace c = false) w)
    (split_from word s).
Proof.
  revert word. induction s as [|c rest IH]; intros word Hw.
  - cbn [split_from]. destruct word as [|x word]; constructor; [|constructor].
    split.
    + intros E. apply (f_equal (@length N)) in E.
      rewrite length_rev in E. discriminate.
    + now apply Forall_rev.
  - cbn [split_from]. destruct (Str.isspace c) eqn:Ec.
    + destruct word as [|x word]; [now apply IH|].
      constructor; [|now apply IH]. split.
      * intros E. apply (f_equal (@length N)) in E.
        rewrite length_rev in E. discriminate.
      * now apply Forall_rev.
    + apply IH. now constructor.
Qed.

Lemma split_from_nil_iff (word s : str) :
  split_from word s = [] <-> word = [] /\ blank s.
Proof.
  unfold blank. revert word. induction s as [|c rest IH]; intros word.
  - cbn [split_from]. destruct word; split; try discriminate.
    + now split.
    + reflexivity.
    + intros [? _]. discriminate.
  - cbn [split_from]. destruct (Str.isspace c) eqn:Ec.
    + destruct word as [|x word].
      * rewrite IH. split; intros [? H]; (split; [reflexivity|]).
        -- now constructor.
        -- now inversion H.
      * split; [discriminate | intros [? _]; discriminate].
    + rewrite IH. split.
      * intros [? _]. discriminate.
      * intros [_ H]. inversion H. congruence.
Qed.

Lemma length_filter_split {X : Type} (p : X -> bool) (l : list X) :
  (length (filter p l) + length (filter (fun x => negb (p x)) l))%nat
  = length l.
Proof.
  induction l as [|x l IH]; [reflexivity|].
  cbn [filter]. destruct (p x); cbn [negb length]; lia.
Qed.

Lemma length_concat_ge {X : Type} (ws : list (list X)) :
  Forall (fun w => w <> []) ws -> (length ws <= length (concat ws))%nat.
Proof.
  induction 1 as [|w ws Hw _ IH]; [reflexivity|].
  cbn [concat length]. rewrite length_app.
  destruct w; [contradiction|]. cbn [length]. lia.
Qed.

(** X12. The characters of a text are the characters of its words and its
    whitespace: [split] drops the whitespace and nothing else, and every
    word holds at least one character and no whitespace. So [char_count],
    which [avg_word_length] divides by the number of words, counts the
    whitespace between the words too. *)
Theorem split_accounts_for_text (text : str) :
  concat (split text) = filter (fun c => negb (Str.isspace c)) text
  /\ Forall (fun w => w <> [] /\ Forall (fun c => Str.isspace c = false) w)
       (split text)
  /\ len text = (len (concat (split text)) + count Str.isspace text)%Z.
Proof.
  unfold split. split; [|split].
  - apply (split_from_concat [] text).
  - apply split_from_words. constructor.
  - rewrite (split_from_concat [] text). cbn [rev app].
    unfold count, len.
    pose proof (length_filter_split Str.isspace text). lia.
Qed.

Lemma split_length_le (text : str) : (len (split text) <= len text)%Z.
Proof.
  unfold len, split.
  pose proof (split_from_words [] text (Forall_nil _)) as Hw.
  assert (Hne : Forall (fun w : str => w <> []) (split_from [] text)).
  { eapply Forall_impl; [|exact Hw]. now intros w [H _]. }
  apply length_concat_ge in Hne.
  rewrite (split_from_concat [] text) in Hne. cbn [rev app] in Hne.
  pose proof (length_filter_split Str.isspace text).
  apply Nat2Z.inj_le. etransitivity; [exact Hne|]. lia.
Qed.

Lemma count_le (p : N -> bool) (text : str) :
  (0 <= count p text <= len text)%Z.
Proof.
  unfold count, len.
  pose proof (length_filter_split p text). lia.
Qed.

Lemma truediv_ok (a b : Z) :
  b <> 0%Z ->
  truediv a b = inr (PrimFloat.div (Float.of_Z a) (Float.of_Z b)).
Proof.
  intros H. unfold truediv. now destruct (Z.eqb_spec b 0).
Qed.

(** X13. [analyze_text_statistics] always returns: neither quotient is
    taken with a zero divisor. The counts are those of the text: no more
    words and no more Persian characters than characters; no word exactly
    when the text is blank, in which case the average is the integer 0;
    and the ratio is the integer 0 on the empty text only. *)
Theorem statistics_total (text : str) :
  exists stats,
    analyze_text_statistics text = inr stats
    /\ char_count stats = len text
    /\ word_count stats = len (split text)
    /\ persian_char_count stats = count is_persian text
    /\ (0 <= word_count stats <= char_count stats)%Z
    /\ (0 <= persian_char_count stats <= char_count stats)%Z
    /\ (word_count stats = 0%Z <-> blank text)
    /\ (blank text <-> avg_word_length stats = Int 0)
    /\ (text = [] <-> persian_ratio stats = Int 0).
Proof.
  pose proof (split_length_le text) as Hwords.
  pose proof (count_le is_persian text) as Hpersian.
  assert (Hblank : split text = [] <-> blank text).
  { unfold split. rewrite split_from_nil_iff. tauto. }
  assert (Hzero : len (split text) = 0%Z <-> blank text).
  { rewrite <- Hblank. unfold len. destruct (split text); cbn [length];
      split; try reflexivity; try discriminate; lia. }
  assert (Hempty : text = [] <-> ~ (0 < len text)%Z).
  { unfold len. destruct text; cbn [length]; split; try reflexivity;
      try discriminate; lia. }
  assert (Hfinish : forall stats,
            char_count stats = len text ->
            word_count stats = len (split text) ->
            persian_char_count stats = count is_persian text ->
            (blank text <-> avg_word_length stats = Int 0) ->
            (text = [] <-> persian_ratio stats = Int 0) ->
            char_count stats = len text
            /\ word_count stats = len (split text)
            /\ persian_char_count stats = count is_persian text
            /\ (0 <= word_count stats <= char_count stats)%Z
            /\ (0 <= persian_char_count stats <= char_count stats)%Z
            /\ (word_count stats = 0%Z <-> blank text)
            /\ (blank text <-> avg_word_length stats = Int 0)
            /\ (text = [] <-> persian_ratio stats = Int 0)).
  { intros stats Hc Hw Hp Ha Hr. rewrite Hc, Hw, Hp.
    repeat split; try lia; try tauto; unfold len; lia. }
  unfold analyze_text_statistics.
  destruct (split text) as [|w ws] eqn:Es; cbn [Py.truthy].
  - assert (B : blank text) by now apply Hblank.
    destruct (Z.ltb_spec 0 (len text)) as [Hpos|Hnot].
    + rewrite truediv_ok by lia. eexists. split; [reflexivity|].
      apply Hfinish;
        cbn [char_count word_count persian_char_count avg_word_length
               persian_ratio]; try reflexivity.
      * now split.
      * split; [|discriminate]. intros ->. unfold len in Hpos.
        cbn [length] in Hpos. lia.
    + eexists. split; [reflexivity|].
      apply Hfinish;
        cbn [char_count word_count persian_char_count avg_word_length
               persian_ratio]; try reflexivity.
      * now split.
      * split; [reflexivity|]. intros _. apply Hempty. lia.
  - assert (Hw : len (w :: ws) <> 0%Z) by (unfold len; cbn [length]; lia).
    assert (Hpos : (0 < len text)%Z).
    { unfold len in *. cbn [length] in Hwords. lia. }
    assert (B : ~ blank text).
    { intros B. apply Hblank in B. discriminate. }
    rewrite (truediv_ok _ _ Hw).
    destruct (Z.ltb_spec 0 (len text)) as [_|Hnot]; [|lia].
    rewrite truediv_ok by lia. eexists. split; [reflexivity|].
    apply Hfinish;
      cbn [char_count word_count persian_char_count avg_word_length
             persian_ratio]; try reflexivity.
    + split; [contradiction | discriminate].
    + split; [|discriminate]. intros ->. unfold len in Hpos.
      cbn [length] in Hpos. lia.
Qed.

Lemma str_eqb_eq (a b : str) : str_eqb a b = true <-> a = b.
Proof.
  revert b. induction a as [|x a IH]; intros [|y b]; cbn [str_eqb];
    split; try reflexivity; try discriminate.
  - intros H. apply andb_true_iff in H as [Hx Hab].
    apply N.eqb_eq in Hx. apply IH in Hab. congruence.
  - intros [= -> ->]. apply andb_true_iff. split.
    + apply N.eqb_refl.
    + now apply IH.
Qed.

(** X14. [get_sentiment_emoji] knows the three English names and answers
    every other string, whatever its case, with the emoji of the unknown;
    the labels [SentimentAnalyzer] returns are among those. *)
Theorem emoji_of_analyzer_labels (unicode_upper : N -> list N)
    (Pipeline : Type) (self : SentimentAnalyzer Pipeline)
    (scores : list score_dict) (sentiment : str) :
  (~ In sentiment [lit "positive"; lit "negative"; lit "neutral"] ->
   get_sentiment_emoji sentiment = EMOJI_UNKNOWN)
  /\ (forall confidence,
        _derive_three_class unicode_upper self scores
        = inr (sentiment, confidence) ->
        get_sentiment_emoji sentiment = EMOJI_UNKNOWN).
Proof.
  split.
  - intros Hnot. unfold get_sentiment_emoji, emoji_map.
    cbn [dict_get].
    destruct (str_eqb (lit "positive") sentiment) eqn:E1;
      [apply str_eqb_eq in E1; exfalso; apply Hnot; simpl; tauto|].
    destruct (str_eqb (lit "negative") sentiment) eqn:E2;
      [apply str_eqb_eq in E2; exfalso; apply Hnot; simpl; tauto|].
    destruct (str_eqb (lit "neutral") sentiment) eqn:E3;
      [apply str_eqb_eq in E3; exfalso; apply Hnot; simpl; tauto|].
    reflexivity.
  - intros confidence E.
    apply derive_label_in in E.
    simpl in E. destruct E as [<- | [<- | [<- | []]]]; reflexivity.
Qed.

Section FeedbackFacts.

Context {Content Clock : Type}.
Context (json_dump : json -> Content) (json_load : Content -> option json).
Context (now_isoformat : Clock -> str * Clock).

Lemma write_same (fs : files Content) (name : str) (c : Content) :
  write Content fs name c name = Some c.
Proof.
  unfold write. now rewrite (proj2 (str_eqb_eq name name) eq_refl).
Qed.

Lemma write_other (fs : files Content) (name other : str) (c : Content) :
  other <> name -> write Content fs name c other = fs other.
Proof.
  intros H. unfold write. destruct (str_eqb other name) eqn:E; [|reflexivity].
  now apply str_eqb_eq in E.
Qed.


End FeedbackFacts.

End UtilsFacts.

(** ** More worked examples *)

Lemma stub_classifies_one :
  port_classifies_one Stub.classify Stub.call_one.
Proof. intros pipe text max_length w. reflexivity. Qed.

(** The confidence of ("SAD", 0.8), ("HAPPY", 0.2) is the score of its
    first entry. *)
Lemma derive_range_example :
  In NEGATIVE [POSITIVE; NEGATIVE; NEUTRAL]
  /\ exists s,
       In s (firstn 2 [mk_score SAD 0.8; mk_score HAPPY 0.2])
       /\ 0.8%float = score s.
Proof.
  apply (derive_range Stub.unicode_upper Stub.analyzer
           [mk_score SAD 0.8; mk_score HAPPY 0.2] NEGATIVE 0.8).
  reflexivity.
Defined.

(** ("SAD", 0.8), ("HAPPY", 0.2) is announced NEGATIVE: the first test
    failed and the second held. *)
Lemma derive_label_iff_example :
  Float.geb 0.2 0.65 && Float.geb 0.2 0.8 = false
  /\ Float.geb 0.8 0.65 && Float.gtb 0.8 0.2 = true.
Proof.
  destruct (derive_label_iff Stub.unicode_upper Stub.analyzer
              (mk_score SAD 0.8) (mk_score HAPPY 0.2) [] NEGATIVE 0.8
              eq_refl) as (_ & Hneg & _).
  now apply Hneg.
Defined.

Lemma derive_nan_neutral_example :
  exists confidence,
    _derive_three_class Stub.unicode_upper Stub.analyzer
      [mk_score HAPPY PrimFloat.nan; mk_score SAD 0.9]
    = inr (NEUTRAL, confidence).
Proof.
  apply (derive_nan_neutral Stub.unicode_upper Stub.analyzer
           (mk_score HAPPY PrimFloat.nan) (mk_score SAD 0.9) []).
  left. reflexivity.
Defined.

Lemma derive_order_example :
  _derive_three_class Stub.unicode_upper Stub.analyzer
    [mk_score HAPPY 0.3; mk_score SAD 0.7]
  = _derive_three_class Stub.unicode_upper Stub.analyzer
      [mk_score SAD 0.7; mk_score HAPPY 0.3].
Proof.
  apply (derive_order_insensitive Stub.unicode_upper Stub.analyzer
           (mk_score HAPPY 0.3) (mk_score SAD 0.7) [] []).
  - reflexivity.
  - discriminate.
Defined.

(** With the pipeline cached, neither method asks for another. *)
Lemma pipeline_cached_example :
  loads_of
    (trace
       (snd (predict Stub.unicode_upper Stub.perf_counter
               Stub.load_pipeline Stub.call_one (lit "good") 512
               (mk_state
                  (mk_analyzer DEFAULT_MODEL 0.65 0.65 (-1) (Some tt))
                  0%nat []))))
  = [].
Proof.
  apply (pipeline_cached_for_good Stub.unicode_upper Stub.perf_counter
           Stub.load_pipeline Stub.call_one Stub.call_many
           (mk_state (mk_analyzer DEFAULT_MODEL 0.65 0.65 (-1) (Some tt))
              0%nat [])
           tt (lit "good") [] 512 32 eq_refl).
Defined.

(** Three texts in chunks of one: three calls, one pipeline built. *)
Lemma batch_loads_once_example :
  loads_of
    (trace
       (snd (batch_predict Stub.unicode_upper Stub.perf_counter
               Stub.load_pipeline Stub.call_many
               [lit "a"; lit "good"; lit "c"] 512 1 Stub.start)))
  = [(DEFAULT_MODEL, (-1)%Z)].
Proof.
  apply (batch_loads_once Stub.unicode_upper Stub.perf_counter
           Stub.load_pipeline Stub.call_many Stub.start
           [lit "a"; lit "good"; lit "c"] 512 1).
  - reflexivity.
  - discriminate.
  - reflexivity.
  - exact stub_loads.
Defined.

Lemma batch_agrees_example :
  exists results st',
    batch_predict Stub.unicode_upper Stub.perf_counter Stub.load_pipeline
      Stub.call_many [lit "a"; lit "good"] 512 32 Stub.start
    = (inr results, st')
    /\ Forall2
         (fun t r =>
            exists r1 st1,
              predict Stub.unicode_upper Stub.perf_counter
                Stub.load_pipeline Stub.call_one t 512 Stub.start
              = (inr r1, st1)
              /\ res_label r1 = res_label r /\ res_score r1 = res_score r)
         [lit "a"; lit "good"] results.
Proof.
  apply (batch_agrees_with_predict Stub.unicode_upper Stub.perf_counter
           Stub.load_pipeline Stub.call_one Stub.call_many Stub.classify
           [lit "a"; lit "good"] 512 32 Stub.start).
  - reflexivity.
  - discriminate.
  - exact stub_loads.
  - exact stub_classifies.
  - exact stub_classifies_one.
  - exact stub_classify_nonempty.
Defined.

(** A batch size of -1 gives no result for a valid text. *)
Lemma bad_batch_size_example :
  batch_predict Stub.unicode_upper Stub.perf_counter Stub.load_pipeline
    Stub.call_many [lit "good"] 512 (-1) Stub.start
  = (inr [], Stub.start).
Proof.
  apply (batch_predict_bad_batch_size Stub.unicode_upper Stub.perf_counter
           Stub.load_pipeline Stub.call_many [lit "good"] 512 (-1)
           Stub.start).
  - discriminate.
  - discriminate.
Defined.

(** Each failure the list names does arise, and is told from the guards'
    errors: a runtime that is down, a model that cannot be loaded, an
    answer with no score (alone and in a batch), and a batch size of
    zero. *)
Lemma prediction_errors_example :
  (fst (predict Stub.unicode_upper Stub.perf_counter Stub.load_pipeline
          StubFaulty.call_one_down (lit "good") 512 Stub.start)
   = inl (ClassifierFailure (lit "down"))
   /\ runtime_error (ClassifierFailure (lit "down")))
  /\ (fst (predict Stub.unicode_upper Stub.perf_counter
             StubFaulty.load_pipeline_missing Stub.call_one (lit "good")
             512 Stub.start)
      = inl (ClassifierFailure (lit "missing"))
      /\ runtime_error (ClassifierFailure (lit "missing")))
  /\ (fst (predict Stub.unicode_upper Stub.perf_counter Stub.load_pipeline
             StubFaulty.call_one_empty (lit "good") 512 Stub.start)
      = inl (ValueError MSG_MAX_EMPTY)
      /\ runtime_error (ValueError MSG_MAX_EMPTY))
  /\ (fst (batch_predict Stub.unicode_upper Stub.perf_counter
             Stub.load_pipeline StubFaulty.call_many_empty
             [lit "good"; lit "bad"] 512 32 Stub.start)
      = inl (ValueError MSG_MAX_EMPTY)
      /\ (ValueError MSG_MAX_EMPTY = ValueError MSG_RANGE_STEP
          \/ runtime_error (ValueError MSG_MAX_EMPTY)))
  /\ (fst (batch_predict Stub.unicode_upper Stub.perf_counter
             Stub.load_pipeline Stub.call_many [lit "good"] 512 0
             Stub.start)
      = inl (ValueError MSG_RANGE_STEP)
      /\ (ValueError MSG_RANGE_STEP = ValueError MSG_RANGE_STEP
          \/ runtime_error (ValueError MSG_RANGE_STEP))).
Proof.
  repeat split; try reflexivity.
  - destruct (proj1 (prediction_errors Stub.unicode_upper
                       Stub.perf_counter Stub.load_pipeline
                       StubFaulty.call_one_down Stub.call_many
                       (lit "good") [] 512 32 Stub.start
                       (ClassifierFailure (lit "down"))) eq_refl)
      as [H | H]; [discriminate | exact H].
  - destruct (proj1 (prediction_errors Stub.unicode_upper
                       Stub.perf_counter StubFaulty.load_pipeline_missing
                       Stub.call_one Stub.call_many
                       (lit "good") [] 512 32 Stub.start
                       (ClassifierFailure (lit "missing"))) eq_refl)
      as [H | H]; [discriminate | exact H].
  - destruct (proj1 (prediction_errors Stub.unicode_upper
                       Stub.perf_counter Stub.load_pipeline
                       StubFaulty.call_one_empty Stub.call_many
                       (lit "good") [] 512 32 Stub.start
                       (ValueError MSG_MAX_EMPTY)) eq_refl)
      as [H | H]; [discriminate | exact H].
  - destruct (proj2 (prediction_errors Stub.unicode_upper
                       Stub.perf_counter Stub.load_pipeline
                       Stub.call_one StubFaulty.call_many_empty
                       (lit "") [lit "good"; lit "bad"] 512 32 Stub.start
                       (ValueError MSG_MAX_EMPTY)) eq_refl)
      as [H | H]; [discriminate | exact H].
  - destruct (proj2 (prediction_errors Stub.unicode_upper
                       Stub.perf_counter Stub.load_pipeline
                       Stub.call_one Stub.call_many
                       (lit "") [lit "good"] 512 0 Stub.start
                       (ValueError MSG_RANGE_STEP)) eq_refl)
      as [H | H]; [discriminate | exact H].
Defined.

Lemma batch_latency_example :
  exists groups st',
    batch_predict Stub.unicode_upper Stub.perf_counter Stub.load_pipeline
      Stub.call_many [lit "a"; lit "good"; lit "c"] 512 2 Stub.start
    = (inr (concat groups), st')
    /\ Forall2
         (fun batch group =>
            length group = length batch
            /\ exists latency,
                 Forall (fun r => latency_ms r = latency) group)
         [[lit "a"; lit "good"]; [lit "c"]] groups.
Proof.
  apply (batch_latency_by_chunk Stub.unicode_upper Stub.perf_counter
           Stub.load_pipeline Stub.call_many
           [lit "a"; lit "good"; lit "c"] 512 2 Stub.start).
  - reflexivity.
  - exact stub_loads.
  - exact stub_answers.
  - discriminate.
Defined.

(** The name with a capital is not known. *)
Lemma emoji_example :
  Utils.get_sentiment_emoji (lit "Positive") = Utils.EMOJI_UNKNOWN.
Proof.
  apply (proj1 (UtilsFacts.emoji_of_analyzer_labels Stub.unicode_upper
                  Stub.Pipeline Stub.analyzer [] (lit "Positive"))).
  simpl. intros [H | [H | [H | []]]]; discriminate.
Defined.

